(** * Inheritance calculator front end (src/App.tsx): net estate and
      individual-heir derivations

    The component [App] keeps its form in [formData], derives the net
    estate in [netEstateCalculations], asks the service
    [calculateInheritance] for the per-class shares in [handleCalculate]
    and expands them to one entry per heir in [individualHeirs].

    Numbers.  The source computes on JavaScript numbers, that is on
    binary64 values.  The component is embedded twice.  In the first
    embedding money amounts and percentages are exact rationals ([Q]),
    the arithmetic in which the specification states its properties;
    [NaN] has no counterpart there, so of the falsy numbers guarded by
    [x || 0] only zero remains.  It carries the properties that do not
    hinge on rounding: which entries the list has, their order and
    names, the handler, and bounds that rounding preserves.  The second
    embedding, [Double], has binary64 values with correctly rounded
    operations, and carries the properties in which the value of a
    difference or of a quotient matters.  Head counts are whole numbers
    ([Z]) in both; a count only ever divides an amount or a percentage.

    Strings.  A string is its UTF-8 byte sequence.  Substring search on
    bytes agrees with substring search on code points for well-formed
    UTF-8, and [toLowerCase] is modelled on the ASCII letters, which is
    all it changes in the English and Arabic names the component
    handles.

    The service.  [calculateInheritance] lives outside the component and
    is a parameter of [handleCalculate].  The rule engine the
    specification puts behind it is modelled in [Engine], from the
    specification's text. *)

From Stdlib Require Import ZArith QArith Qminmax Lia Lqa Bool List.
From Stdlib Require Import Strings.String Strings.Ascii Numbers.DecimalString.
From Stdlib Require Numbers.DecimalZ.
From Stdlib Require Import Floats.SpecFloat.
Import ListNotations.

Open Scope string_scope.
Open Scope Z_scope.
Open Scope Q_scope.

(** ** JavaScript primitives used by the component *)

Module JS.

(** [Math.max(x, y)] on two numbers. *)
Definition Math_max (x y : Q) : Q := if Qle_bool x y then y else x.

(** [x || 0] on a number: a falsy left operand yields the right one. *)
Definition or_zero (x : Q) : Q := if Qeq_bool x 0 then 0 else x.

(** [x > y] on numbers. *)
Definition gtb (x y : Q) : bool := negb (Qle_bool x y).

Definition lower_ascii (c : ascii) : ascii :=
  let n := nat_of_ascii c in
  if (Nat.leb 65 n && Nat.leb n 90)%bool then ascii_of_nat (n + 32) else c.

(** [s.toLowerCase()]. *)
Fixpoint toLowerCase (s : string) : string :=
  match s with
  | EmptyString => EmptyString
  | String c r => String (lower_ascii c) (toLowerCase r)
  end.

(** [s.includes(k)]: [k] occurs in [s] as a contiguous run. *)
Fixpoint includes (s k : string) : bool :=
  if String.prefix k s then true
  else match s with
       | EmptyString => false
       | String _ r => includes r k
       end.

(** [String(i)] for a loop index, in decimal. *)
Definition string_of_index (i : Z) : string :=
  NilEmpty.string_of_int (Z.to_int i).

End JS.

(** ** Types of the form and of the service reply (./types) *)

Inductive Language := ar | en.

Inductive DeceasedGender := MALE | FEMALE.

Record HeirsData := mkHeirsData {
  deceasedGender : DeceasedGender;
  estateValue : Q;
  currency : string;
  debts : Q;
  willAmount : Q;
  hasHusband : bool;
  wivesCount : Z;
  sonsCount : Z;
  daughtersCount : Z;
  hasFather : bool;
  hasMother : bool;
  fullBrothersCount : Z;
  fullSistersCount : Z;
  paternalBrothersCount : Z;
  paternalSistersCount : Z
}.

(** One element of [results.shares]; only the fields the component
    reads. *)
Record Share := mkShare {
  heir : string;
  amount : Q;
  sharePercentage : Q;
  shareFraction : string
}.

Record CalculationResponse := mkResponse {
  shares : list Share
}.

(** The initial [formData] of [useState]. *)
Definition initialFormData : HeirsData :=
  {| deceasedGender := MALE; estateValue := 0; currency := "SAR";
     debts := 0; willAmount := 0; hasHusband := false; wivesCount := 0;
     sonsCount := 0; daughtersCount := 0; hasFather := false;
     hasMother := false; fullBrothersCount := 0; fullSistersCount := 0;
     paternalBrothersCount := 0; paternalSistersCount := 0 |}.

(** ** [netEstateCalculations] (App.tsx, lines 45-59) *)

Record NetEstate := mkNetEstate {
  ne_estate : Q;
  ne_debts : Q;
  ne_will : Q;
  ne_net : Q;
  isWillOverLimit : bool
}.

Definition netEstateCalculations (formData : HeirsData) : NetEstate :=
  let estate := JS.or_zero (estateValue formData) in
  let debts := JS.or_zero (debts formData) in
  let initialRemainder := JS.Math_max 0 (estate - debts) in
  let maxWill := estate / 3 in
  let actualWill := JS.or_zero (willAmount formData) in
  let net := JS.Math_max 0 (initialRemainder - actualWill) in
  {| ne_estate := estate;
     ne_debts := debts;
     ne_will := actualWill;
     ne_net := net;
     isWillOverLimit := (JS.gtb actualWill maxWill && JS.gtb estate 0)%bool |}.

(** ** [individualHeirs] (App.tsx, lines 61-145) *)

(** [TRANSLATIONS.individualHeirLabels[lang]] (./constants): the display
    label of each kind of heir. *)
Module Labels.
Record t := mk {
  husband : string;
  wife : string;
  father : string;
  mother : string;
  son : string;
  daughter : string;
  brother : string;
  sister : string
}.
End Labels.

(** An element of the list built by [individualHeirs]. *)
Module Heir.
Record t := mk {
  name : string;
  amount : Q;
  percentage : Q;
  fraction : string
}.
End Heir.

(** [for (let i = 1; i <= n; i++) acc = body(i, acc)]. *)
Definition for_upto {A : Type} (n : Z) (body : Z -> A -> A) (init : A) : A :=
  fold_left (fun acc i => body i acc)
            (map Z.of_nat (seq 1 (Z.to_nat n))) init.

(** [list.push(e)]. *)
Definition push {A : Type} (e : A) (l : list A) : list A := l ++ [e].

(** The keyword lists passed to [getShare], in source order. *)
Definition husband_keywords : list string := ["husband"; "زوج"].
Definition wife_keywords : list string := ["wife"; "wives"; "زوجة"; "زوجات"].
Definition father_keywords : list string := ["father"; "أب"].
Definition mother_keywords : list string := ["mother"; "أم"].
Definition son_keywords : list string := ["son"; "sons"; "ابن"; "أبناء"].
Definition daughter_keywords : list string :=
  ["daughter"; "daughters"; "بنت"; "بنات"; "ابنة"].
Definition brother_keywords : list string := ["full brother"; "أخ شقيق"].
Definition sister_keywords : list string := ["full sister"; "أخت شقيقة"].

Definition share_matches (keywords : list string) (s : Share) : bool :=
  existsb (fun k => JS.includes (JS.toLowerCase (heir s)) (JS.toLowerCase k))
          keywords.

(** [getShare]: the first share whose lower-cased heir name contains one
    of the lower-cased keywords. *)
Definition getShare (results : CalculationResponse) (keywords : list string)
  : option Share :=
  find (share_matches keywords) (shares results).

Section IndividualHeirs.

Variable individualHeirLabels : Language -> Labels.t.

Definition individualHeirs (results : option CalculationResponse)
           (formData : HeirsData) (lang : Language) : list Heir.t :=
  match results with
  | None => []
  | Some results =>
    let list : Datatypes.list Heir.t := [] in
    let labels := individualHeirLabels lang in
    let list :=
      if hasHusband formData then
        match getShare results husband_keywords with
        | Some s => push (Heir.mk (Labels.husband labels) (amount s)
                                  (sharePercentage s) (shareFraction s)) list
        | None => list
        end
      else list in
    let list :=
      if (0 <? wivesCount formData)%Z then
        match getShare results wife_keywords with
        | Some s =>
          let individualAmount := amount s / inject_Z (wivesCount formData) in
          let individualPerc :=
            sharePercentage s / inject_Z (wivesCount formData) in
          for_upto (wivesCount formData)
            (fun i => push (Heir.mk
               (if (1 <? wivesCount formData)%Z
                then Labels.wife labels ++ " " ++ JS.string_of_index i
                else Labels.wife labels)
               individualAmount individualPerc (shareFraction s))) list
        | None => list
        end
      else list in
    let list :=
      if hasFather formData then
        match getShare results father_keywords with
        | Some s => push (Heir.mk (Labels.father labels) (amount s)
                                  (sharePercentage s) (shareFraction s)) list
        | None => list
        end
      else list in
    let list :=
      if hasMother formData then
        match getShare results mother_keywords with
        | Some s => push (Heir.mk (Labels.mother labels) (amount s)
                                  (sharePercentage s) (shareFraction s)) list
        | None => list
        end
      else list in
    let list :=
      if (0 <? sonsCount formData)%Z then
        match getShare results son_keywords with
        | Some s =>
          let individualAmount := amount s / inject_Z (sonsCount formData) in
          let individualPerc :=
            sharePercentage s / inject_Z (sonsCount formData) in
          for_upto (sonsCount formData)
            (fun i => push (Heir.mk
               (if (1 <? sonsCount formData)%Z
                then Labels.son labels ++ " " ++ JS.string_of_index i
                else Labels.son labels)
               individualAmount individualPerc (shareFraction s))) list
        | None => list
        end
      else list in
    let list :=
      if (0 <? daughtersCount formData)%Z then
        match getShare results daughter_keywords with
        | Some s =>
          let individualAmount :=
            amount s / inject_Z (daughtersCount formData) in
          let individualPerc :=
            sharePercentage s / inject_Z (daughtersCount formData) in
          for_upto (daughtersCount formData)
            (fun i => push (Heir.mk
               (if (1 <? daughtersCount formData)%Z
                then Labels.daughter labels ++ " " ++ JS.string_of_index i
                else Labels.daughter labels)
               individualAmount individualPerc (shareFraction s))) list
        | None => list
        end
      else list in
    let list :=
      if (0 <? fullBrothersCount formData)%Z then
        match getShare results brother_keywords with
        | Some s =>
          let individualAmount :=
            amount s / inject_Z (fullBrothersCount formData) in
          let individualPerc :=
            sharePercentage s / inject_Z (fullBrothersCount formData) in
          for_upto (fullBrothersCount formData)
            (fun i => push (Heir.mk
               (Labels.brother labels ++ " " ++ JS.string_of_index i)
               individualAmount individualPerc (shareFraction s))) list
        | None => list
        end
      else list in
    let list :=
      if (0 <? fullSistersCount formData)%Z then
        match getShare results sister_keywords with
        | Some s =>
          let individualAmount :=
            amount s / inject_Z (fullSistersCount formData) in
          let individualPerc :=
            sharePercentage s / inject_Z (fullSistersCount formData) in
          for_upto (fullSistersCount formData)
            (fun i => push (Heir.mk
               (Labels.sister labels ++ " " ++ JS.string_of_index i)
               individualAmount individualPerc (shareFraction s))) list
        | None => list
        end
      else list in
    list
  end.

End IndividualHeirs.

(** ** Application state and [handleCalculate] (App.tsx, lines 14-36 and
       147-159) *)

Inductive View := home | form | results.

(** The state cells of the component, with the two output channels the
    handler writes to ([alert] and [console.error]). *)
Record AppState := mkAppState {
  st_lang : Language;
  st_view : View;
  st_step : Z;
  st_loading : bool;
  st_results : option CalculationResponse;
  st_formData : HeirsData;
  st_alerts : list string;
  st_console : list string
}.

Definition initialState : AppState :=
  {| st_lang := ar; st_view := home; st_step := 1; st_loading := false;
     st_results := None; st_formData := initialFormData;
     st_alerts := []; st_console := [] |}.

(** What awaiting the promise of [calculateInheritance] gives: the
    resolved value, a response as the call is typed, or the thrown
    error. *)
Inductive Settled :=
| Resolved (res : CalculationResponse)
| Rejected (error : string).

Definition setLoading (b : bool) (st : AppState) : AppState :=
  {| st_lang := st_lang st; st_view := st_view st; st_step := st_step st;
     st_loading := b; st_results := st_results st;
     st_formData := st_formData st; st_alerts := st_alerts st;
     st_console := st_console st |}.

Definition setResults (r : option CalculationResponse) (st : AppState)
  : AppState :=
  {| st_lang := st_lang st; st_view := st_view st; st_step := st_step st;
     st_loading := st_loading st; st_results := r;
     st_formData := st_formData st; st_alerts := st_alerts st;
     st_console := st_console st |}.

Definition setView (v : View) (st : AppState) : AppState :=
  {| st_lang := st_lang st; st_view := v; st_step := st_step st;
     st_loading := st_loading st; st_results := st_results st;
     st_formData := st_formData st; st_alerts := st_alerts st;
     st_console := st_console st |}.

Definition alert (msg : string) (st : AppState) : AppState :=
  {| st_lang := st_lang st; st_view := st_view st; st_step := st_step st;
     st_loading := st_loading st; st_results := st_results st;
     st_formData := st_formData st; st_alerts := push msg (st_alerts st);
     st_console := st_console st |}.

Definition console_error (msg : string) (st : AppState) : AppState :=
  {| st_lang := st_lang st; st_view := st_view st; st_step := st_step st;
     st_loading := st_loading st; st_results := st_results st;
     st_formData := st_formData st; st_alerts := st_alerts st;
     st_console := push msg (st_console st) |}.

Section HandleCalculate.

(** [calculateInheritance] of ./services/geminiService: the service
    the handler calls.  Its body is outside the component; the handler
    is modelled over whatever the call settles to. *)
Variable calculateInheritance : HeirsData -> Language -> Settled.

Definition handleCalculate (st : AppState) : AppState :=
  let st := setLoading true st in
  let st :=
    match calculateInheritance (st_formData st) (st_lang st) with
    | Resolved res =>
      let st := setResults (Some res) st in
      setView results st
    | Rejected error =>
      let st := alert "Error calculating distribution. Please try again." st in
      console_error error st
    end in
  setLoading false st.

End HandleCalculate.

(** ** The eight kinds of heir the list is built from *)

Inductive HeirKind :=
| KHusband | KWife | KFather | KMother | KSon | KDaughter | KBrother | KSister.

Definition all_kinds : list HeirKind :=
  [KHusband; KWife; KFather; KMother; KSon; KDaughter; KBrother; KSister].

Definition keywords (k : HeirKind) : list string :=
  match k with
  | KHusband => husband_keywords
  | KWife => wife_keywords
  | KFather => father_keywords
  | KMother => mother_keywords
  | KSon => son_keywords
  | KDaughter => daughter_keywords
  | KBrother => brother_keywords
  | KSister => sister_keywords
  end.

Definition label (labels : Labels.t) (k : HeirKind) : string :=
  match k with
  | KHusband => Labels.husband labels
  | KWife => Labels.wife labels
  | KFather => Labels.father labels
  | KMother => Labels.mother labels
  | KSon => Labels.son labels
  | KDaughter => Labels.daughter labels
  | KBrother => Labels.brother labels
  | KSister => Labels.sister labels
  end.

(** Kinds entered as a head count, as opposed to a yes/no box. *)
Definition is_group (k : HeirKind) : bool :=
  match k with
  | KHusband | KFather | KMother => false
  | _ => true
  end.

(** The number of heirs of a kind the form declares. *)
Definition declared (formData : HeirsData) (k : HeirKind) : Z :=
  match k with
  | KHusband => if hasHusband formData then 1 else 0
  | KWife => wivesCount formData
  | KFather => if hasFather formData then 1 else 0
  | KMother => if hasMother formData then 1 else 0
  | KSon => sonsCount formData
  | KDaughter => daughtersCount formData
  | KBrother => fullBrothersCount formData
  | KSister => fullSistersCount formData
  end%Z.

(** The name given to member [i] of a kind with [n] declared heirs. *)
Definition member_name (labels : Labels.t) (k : HeirKind) (n i : Z) : string :=
  match k with
  | KHusband | KFather | KMother => label labels k
  | KWife | KSon | KDaughter =>
    if (1 <? n)%Z then label labels k ++ " " ++ JS.string_of_index i
    else label labels k
  | KBrother | KSister => label labels k ++ " " ++ JS.string_of_index i
  end.

(** The entries one kind contributes to the list. *)
Definition entries (labels : Labels.t) (results : CalculationResponse)
           (formData : HeirsData) (k : HeirKind) : list Heir.t :=
  let n := declared formData k in
  if (0 <? n)%Z then
    match getShare results (keywords k) with
    | Some s =>
      if is_group k then
        map (fun i => Heir.mk (member_name labels k n i)
                              (amount s / inject_Z n)
                              (sharePercentage s / inject_Z n)
                              (shareFraction s))
            (map Z.of_nat (seq 1 (Z.to_nat n)))
      else [Heir.mk (label labels k) (amount s) (sharePercentage s)
                    (shareFraction s)]
    | None => []
    end
  else [].

(** Sum of the displayed amounts. *)
Definition total_amount (l : list Heir.t) : Q :=
  fold_right (fun e acc => Heir.amount e + acc) 0 l.

(** The form with the paternal-sibling counts replaced. *)
Definition with_paternal (formData : HeirsData) (pb ps : Z) : HeirsData :=
  {| deceasedGender := deceasedGender formData;
     estateValue := estateValue formData; currency := currency formData;
     debts := debts formData; willAmount := willAmount formData;
     hasHusband := hasHusband formData; wivesCount := wivesCount formData;
     sonsCount := sonsCount formData;
     daughtersCount := daughtersCount formData;
     hasFather := hasFather formData; hasMother := hasMother formData;
     fullBrothersCount := fullBrothersCount formData;
     fullSistersCount := fullSistersCount formData;
     paternalBrothersCount := pb; paternalSistersCount := ps |}.

(** The form with one kind of heir taken out. *)
Definition without (k : HeirKind) (formData : HeirsData) : HeirsData :=
  {| deceasedGender := deceasedGender formData;
     estateValue := estateValue formData; currency := currency formData;
     debts := debts formData; willAmount := willAmount formData;
     hasHusband :=
       match k with KHusband => false | _ => hasHusband formData end;
     wivesCount := match k with KWife => 0%Z | _ => wivesCount formData end;
     sonsCount := match k with KSon => 0%Z | _ => sonsCount formData end;
     daughtersCount :=
       match k with KDaughter => 0%Z | _ => daughtersCount formData end;
     hasFather := match k with KFather => false | _ => hasFather formData end;
     hasMother := match k with KMother => false | _ => hasMother formData end;
     fullBrothersCount :=
       match k with KBrother => 0%Z | _ => fullBrothersCount formData end;
     fullSistersCount :=
       match k with KSister => 0%Z | _ => fullSistersCount formData end;
     paternalBrothersCount := paternalBrothersCount formData;
     paternalSistersCount := paternalSistersCount formData |}.

(** ** The distribution engine behind [calculateInheritance]

    The component only calls [calculateInheritance]; the computation of
    the distribution itself is not part of src/App.tsx.  The definitions
    of this module follow the specification's sections 3, 4.1 to 4.6 and
    7, component by component.  The engine's [EstateInput] has the
    fields of the form, so [HeirsData] serves for it ([willAmount] is
    the bequest). *)

Module Engine.

(** Modelled from the spec: EstateInput of section 3, the input of the
    absent engine; field for field the form's [HeirsData]. *)
Definition EstateInput := HeirsData.

(** Modelled from the spec: the closed enumeration HeirClass of
    section 3, absent from the source. *)
Inductive HeirClass :=
| Husband | WifeGroup | Father | Mother | SonGroup | DaughterGroup
| FullBrotherGroup | FullSisterGroup
| PaternalBrotherGroup | PaternalSisterGroup.

(** Modelled from the spec: the classes in the order section 3 lists
    them. *)
Definition all_classes : list HeirClass :=
  [Husband; WifeGroup; Father; Mother; SonGroup; DaughterGroup;
   FullBrotherGroup; FullSisterGroup;
   PaternalBrotherGroup; PaternalSisterGroup].

(** Modelled from the spec: member count of a class (section 3): 1 for
    a singular class that is present, the input count for a group. *)
Definition memberCount (i : EstateInput) (c : HeirClass) : Z :=
  match c with
  | Husband => if hasHusband i then 1 else 0
  | WifeGroup => wivesCount i
  | Father => if hasFather i then 1 else 0
  | Mother => if hasMother i then 1 else 0
  | SonGroup => sonsCount i
  | DaughterGroup => daughtersCount i
  | FullBrotherGroup => fullBrothersCount i
  | FullSisterGroup => fullSistersCount i
  | PaternalBrotherGroup => paternalBrothersCount i
  | PaternalSisterGroup => paternalSistersCount i
  end%Z.

(** Modelled from the spec: the spouse classes, which radd leaves at
    their fixed fraction (section 4.6); every other class is a blood
    relative. *)
Definition is_spouse (c : HeirClass) : bool :=
  match c with Husband | WifeGroup => true | _ => false end.

(** *** 4.1 Input Validator *)

(** Modelled from the spec: the fields a ValidationError can cite
    (sections 4.1 and 7). *)
Inductive Field :=
| F_wivesCount | F_sonsCount | F_daughtersCount | F_fullBrothersCount
| F_fullSistersCount | F_paternalBrothersCount | F_paternalSistersCount
| F_hasHusband | F_debts | F_bequest.

(** Modelled from the spec: ValidationError of section 7. *)
Record ValidationError := mkValidationError { field : Field }.

(** Modelled from the spec: the Input Validator of section 4.1, absent
    from the source.  The checks run in the order the section lists
    them; the input is returned unchanged when all pass. *)
Definition validate (i : EstateInput) : ValidationError + EstateInput :=
  if (wivesCount i <? 0)%Z then inl (mkValidationError F_wivesCount)
  else if (sonsCount i <? 0)%Z then inl (mkValidationError F_sonsCount)
  else if (daughtersCount i <? 0)%Z
    then inl (mkValidationError F_daughtersCount)
  else if (fullBrothersCount i <? 0)%Z
    then inl (mkValidationError F_fullBrothersCount)
  else if (fullSistersCount i <? 0)%Z
    then inl (mkValidationError F_fullSistersCount)
  else if (paternalBrothersCount i <? 0)%Z
    then inl (mkValidationError F_paternalBrothersCount)
  else if (paternalSistersCount i <? 0)%Z
    then inl (mkValidationError F_paternalSistersCount)
  else if (4 <? wivesCount i)%Z then inl (mkValidationError F_wivesCount)
  else if (hasHusband i && (0 <? wivesCount i)%Z)%bool
    then inl (mkValidationError F_hasHusband)
  else if JS.gtb (debts i) (estateValue i)
    then inl (mkValidationError F_debts)
  else if JS.gtb 0 (willAmount i) then inl (mkValidationError F_bequest)
  else inr i.

(** *** 4.2 Net Estate Calculator *)

(** Modelled from the spec: the two non-fatal warnings of section 7. *)
Inductive Warning :=
| BequestCapped (excessAmount : Q)
| UnresolvedRemainder (fraction amount : Q).

(** Modelled from the spec: NetEstate of sections 3 and 6. *)
Record NetEstate := mkNetEstate {
  ne_estateValue : Q;
  ne_debts : Q;
  appliedBequest : Q;
  distributable : Q;
  netEstate : Q;
  ne_warnings : list Warning
}.

(** Modelled from the spec: [min] of section 4.2. *)
Definition Qminimum (x y : Q) : Q := if Qle_bool x y then x else y.

(** Modelled from the spec: the Net Estate Calculator of section 4.2,
    whose capping the source's [netEstateCalculations] does not do. *)
Definition netEstateOf (i : EstateInput) : NetEstate :=
  let distributable := JS.Math_max 0 (estateValue i - debts i) in
  let cap := distributable / 3 in
  let appliedBequest := Qminimum (willAmount i) cap in
  {| ne_estateValue := estateValue i;
     ne_debts := debts i;
     appliedBequest := appliedBequest;
     distributable := distributable;
     netEstate := distributable - appliedBequest;
     ne_warnings :=
       if JS.gtb (willAmount i) cap
       then [BequestCapped (willAmount i - cap)] else [] |}.

(** *** 4.3 Eligibility and Exclusion Resolver *)

(** Modelled from the spec: the three outcomes of section 4.3 for a
    class, an excluded class carrying the class that excludes it. *)
Inductive Status :=
| Absent
| Present
| Excluded (reason : HeirClass).

(** Modelled from the spec: "any son survives". *)
Definition anySon (i : EstateInput) : bool := (0 <? sonsCount i)%Z.

(** Modelled from the spec: "any descendant survives". *)
Definition anyDescendant (i : EstateInput) : bool :=
  (anySon i || (0 <? daughtersCount i)%Z)%bool.

(** Modelled from the spec: the number of surviving siblings, for
    "two-or-more siblings survive". *)
Definition siblings (i : EstateInput) : Z :=
  (fullBrothersCount i + fullSistersCount i
   + paternalBrothersCount i + paternalSistersCount i)%Z.

(** Modelled from the spec: the three exclusion rules of section 4.3,
    tried in the order given; the reason code is the excluding class.
    The section leaves the exclusion of paternal sisters by full
    sisters to the priority order of section 4.5, so none is applied
    here. *)
Definition status (i : EstateInput) (c : HeirClass) : Status :=
  if (memberCount i c <=? 0)%Z then Absent
  else match c with
       | FullBrotherGroup | FullSisterGroup | PaternalSisterGroup =>
         if hasFather i then Excluded Father
         else if anySon i then Excluded SonGroup
         else Present
       | PaternalBrotherGroup =>
         if hasFather i then Excluded Father
         else if anySon i then Excluded SonGroup
         else if (0 <? fullBrothersCount i)%Z then Excluded FullBrotherGroup
         else Present
       | _ => Present
       end.

(** Modelled from the spec: the classes carried on as Present. *)
Definition present (i : EstateInput) (c : HeirClass) : bool :=
  match status i c with Present => true | _ => false end.

(** *** 4.4 Fixed-Share Assigner *)

(** Modelled from the spec: the fixed-share table of section 4.4.
    [None] is a class without a fixed fraction in the context.  A
    sister group has its fixed fraction when no full brother survives
    and its own brothers do not survive either. *)
Definition fixedShare (i : EstateInput) (c : HeirClass) : option Q :=
  if negb (present i c) then None
  else match c with
       | Husband => Some (if anyDescendant i then 1 # 4 else 1 # 2)
       | WifeGroup => Some (if anyDescendant i then 1 # 8 else 1 # 4)
       | Father => if anyDescendant i then Some (1 # 6) else None
       | Mother =>
         Some (if (anyDescendant i || (2 <=? siblings i)%Z)%bool
               then 1 # 6 else 1 # 3)
       | SonGroup => None
       | DaughterGroup =>
         if anySon i then None
         else Some (if (daughtersCount i =? 1)%Z then 1 # 2 else 2 # 3)
       | FullBrotherGroup | PaternalBrotherGroup => None
       | FullSisterGroup =>
         if (0 <? fullBrothersCount i)%Z then None
         else Some (if (fullSistersCount i =? 1)%Z then 1 # 2 else 2 # 3)
       | PaternalSisterGroup =>
         if ((0 <? fullBrothersCount i) || (0 <? paternalBrothersCount i))%Z
         then None
         else Some (if (paternalSistersCount i =? 1)%Z
                    then 1 # 2 else 2 # 3)
       end.

(** Modelled from the spec: the fixed fraction awarded, none counting
    as zero in the sum of section 4.5. *)
Definition fixedOrZero (i : EstateInput) (c : HeirClass) : Q :=
  match fixedShare i c with Some f => f | None => 0 end.

(** Modelled from the spec: the sums written with a capital sigma. *)
Definition Qsum (l : list Q) : Q := fold_right Qplus 0 l.

(** *** 4.5 Residual Distributor *)

(** Modelled from the spec: [remainder = 1 - sum of the fixed fractions
    awarded] (section 4.5). *)
Definition remainder (i : EstateInput) : Q :=
  1 - Qsum (map (fixedOrZero i) all_classes).

(** Modelled from the spec: the residuary tiers of section 4.5. *)
Inductive Residuary :=
| ByDescendants | ByFather | ByFullSiblings | ByPaternalSiblings
| NoResiduary.

(** Modelled from the spec: the strict priority order of section 4.5.
    A sister group without brothers is residuary only beside
    daughters. *)
Definition residuary (i : EstateInput) : Residuary :=
  if anySon i then ByDescendants
  else if hasFather i then ByFather
  else if (present i FullBrotherGroup
           || (present i FullSisterGroup && (0 <? daughtersCount i)%Z))%bool
    then ByFullSiblings
  else if (present i PaternalBrotherGroup
           || (present i PaternalSisterGroup
               && (0 <? daughtersCount i)%Z))%bool
    then ByPaternalSiblings
  else NoResiduary.

(** Modelled from the spec: the heads of a class that take part in a
    per-head split. *)
Definition heads (i : EstateInput) (c : HeirClass) : Q :=
  if present i c then inject_Z (memberCount i c) else 0.

(** Modelled from the spec: the part of the residue a class takes
    within its tier, at the 2:1 per-head ratio of section 4.5. *)
Definition residuePortion (i : EstateInput) (c : HeirClass) : Q :=
  match residuary i, c with
  | ByDescendants, SonGroup =>
    2 * heads i SonGroup / (2 * heads i SonGroup + heads i DaughterGroup)
  | ByDescendants, DaughterGroup =>
    heads i DaughterGroup / (2 * heads i SonGroup + heads i DaughterGroup)
  | ByFather, Father => 1
  | ByFullSiblings, FullBrotherGroup =>
    2 * heads i FullBrotherGroup
    / (2 * heads i FullBrotherGroup + heads i FullSisterGroup)
  | ByFullSiblings, FullSisterGroup =>
    heads i FullSisterGroup
    / (2 * heads i FullBrotherGroup + heads i FullSisterGroup)
  | ByPaternalSiblings, PaternalBrotherGroup =>
    2 * heads i PaternalBrotherGroup
    / (2 * heads i PaternalBrotherGroup + heads i PaternalSisterGroup)
  | ByPaternalSiblings, PaternalSisterGroup =>
    heads i PaternalSisterGroup
    / (2 * heads i PaternalBrotherGroup + heads i PaternalSisterGroup)
  | _, _ => 0
  end.

(** Modelled from the spec: the fraction awarded to a class before
    normalisation: its fixed fraction plus its part of a positive
    remainder. *)
Definition awarded (i : EstateInput) (c : HeirClass) : Q :=
  fixedOrZero i c
  + (if JS.gtb (remainder i) 0 then remainder i * residuePortion i c else 0).

(** Modelled from the spec: the classes with nonzero entitlement, the
    only ones given a ClassShare (section 3). *)
Definition recipients (i : EstateInput) : list HeirClass :=
  filter (fun c => JS.gtb (awarded i c) 0) all_classes.

(** Modelled from the spec: the blood relatives among them. *)
Definition bloodRecipients (i : EstateInput) : list HeirClass :=
  filter (fun c => negb (is_spouse c)) (recipients i).

(** Modelled from the spec: the sum of the awarded fractions. *)
Definition total (i : EstateInput) : Q :=
  Qsum (map (awarded i) (recipients i)).

(** Modelled from the spec: the remainder is unresolved when it is
    positive, no residuary class absorbs it and no blood relative is
    among the recipients (section 4.5, last sentence). *)
Definition unresolved (i : EstateInput) : bool :=
  (JS.gtb (remainder i) 0
   && match residuary i with NoResiduary => true | _ => false end
   && match bloodRecipients i with [] => true | _ => false end)%bool.

(** *** 4.6 Awl/Radd Normalizer *)

(** Modelled from the spec: the two corrective paths of section 4.6, or
    neither. *)
Inductive Correction := Awl | Radd | NoCorrection.

(** Modelled from the spec: awl on over-subscription; radd on
    under-subscription with no residuary heir and outside the
    spouse-only case. *)
Definition correction (i : EstateInput) : Correction :=
  if JS.gtb (total i) 1 then Awl
  else if (JS.gtb 1 (total i)
           && match residuary i with NoResiduary => true | _ => false end
           && negb (unresolved i))%bool then Radd
  else NoCorrection.

(** Modelled from the spec: the spouses among the recipients, and the
    part of the estate they hold. *)
Definition spouseRecipients (i : EstateInput) : list HeirClass :=
  filter is_spouse (recipients i).

(** Modelled from the spec: the two corrective paths of section 4.6.
    Awl scales every fraction by [1 / total].  Radd leaves the spouse
    classes at their fixed fraction and scales every blood-relative
    fraction by [1 / (sum of the blood-relative fractions)], so that the
    blood relatives share, in proportion to their entitlements, what the
    spouses leave and so absorb the shortfall: in Scenario A of
    section 8 the daughter's 1/2 becomes 3/4 beside the husband's
    1/4. *)
Definition normalized (i : EstateInput) (c : HeirClass) : Q :=
  match correction i with
  | Awl => awarded i c * (1 / total i)
  | Radd =>
    if is_spouse c then awarded i c
    else awarded i c * (1 / Qsum (map (awarded i) (bloodRecipients i)))
         * (1 - Qsum (map (awarded i) (spouseRecipients i)))
  | NoCorrection => awarded i c
  end.

(** Modelled from the spec: ClassShare of sections 3 and 6. *)
Record ClassShare := mkClassShare {
  heirClass : HeirClass;
  cs_fraction : Q;
  cs_amount : Q;
  cs_memberCount : Z
}.

(** Modelled from the spec: IndividualShare of sections 3 and 6. *)
Record IndividualShare := mkIndividualShare {
  is_heirClass : HeirClass;
  memberIndex : Z;
  is_amount : Q
}.

(** Modelled from the spec: DistributionResult of sections 3 and 6. *)
Record DistributionResult := mkDistributionResult {
  dr_netEstate : NetEstate;
  classShares : list ClassShare;
  individualShares : list IndividualShare;
  warnings : list Warning
}.

(** Modelled from the spec: [amount = fraction * netEstate], finalised
    after normalisation (section 4.6). *)
Definition classShareOf (i : EstateInput) (c : HeirClass) : ClassShare :=
  {| heirClass := c;
     cs_fraction := normalized i c;
     cs_amount := normalized i c * netEstate (netEstateOf i);
     cs_memberCount := memberCount i c |}.

(** Modelled from the spec: the even division of a class amount by its
    member count (section 4.6). *)
Definition expand (s : ClassShare) : list IndividualShare :=
  map (fun k => {| is_heirClass := heirClass s;
                   memberIndex := Z.of_nat k;
                   is_amount := cs_amount s / inject_Z (cs_memberCount s) |})
      (seq 1 (Z.to_nat (cs_memberCount s))).

(** Modelled from the spec: the engine entry point [compute] of
    section 6, the pipeline of sections 4.1 to 4.6 run once, top to
    bottom. *)
Definition compute (input : EstateInput)
  : ValidationError + DistributionResult :=
  match validate input with
  | inl e => inl e
  | inr i =>
    let ne := netEstateOf i in
    let cs := map (classShareOf i) (recipients i) in
    inr {| dr_netEstate := ne;
           classShares := cs;
           individualShares := flat_map expand cs;
           warnings :=
             ne_warnings ne
             ++ (if unresolved i
                 then [UnresolvedRemainder (remainder i)
                                           (remainder i * netEstate ne)]
                 else []) |}
  end.

(** Modelled from the spec: "a result that carries an
    UnresolvedRemainder warning" (section 8). *)
Definition has_unresolved (r : DistributionResult) : bool :=
  existsb (fun w => match w with UnresolvedRemainder _ _ => true
                            | _ => false end) (warnings r).

(** Modelled from the spec: the sum of the ClassShare amounts of the
    conservation property (section 8). *)
Definition classTotal (r : DistributionResult) : Q :=
  Qsum (map cs_amount (classShares r)).

End Engine.

(** ** The component on binary64 numbers

    JavaScript numbers are IEEE 754 binary64 values.  The definitions of
    this module are [netEstateCalculations], [getShare] and
    [individualHeirs] once more, line for line, with every number a
    binary64 value and every operation the correctly rounded one of
    [SpecFloat] (precision 53, [emax] 1024), [NaN], the infinities and
    the two zeros included.  Head counts stay whole numbers, turned into
    a binary64 value where the source divides by them. *)

Module Double.

Definition prec : Z := 53.
Definition emax : Z := 1024.

(** A JavaScript number. *)
Definition num : Type := spec_float.

Definition zero : num := S754_zero false.

(** The number a whole count denotes. *)
Definition of_Z (n : Z) : num := binary_normalize prec emax n 0 false.

(** The binary64 value nearest to [p / q]. *)
Definition of_ratio (p : Z) (q : positive) : num :=
  match p with
  | Z0 => zero
  | _ =>
    let '(m, r) := Z.div_eucl (Z.shiftl (Z.abs p) 1200) (Zpos q) in
    binary_round_aux prec emax (p <? 0)%Z m (- 1200)
                     (new_location (Zpos q) r)
  end.

(** The number a decimal literal [m]e[e10] denotes, as
    [14285714285714286e-15] for 14.285714285714286. *)
Definition lit (m e10 : Z) : num :=
  if (0 <=? e10)%Z then of_Z (m * 10 ^ e10)
  else of_ratio m (Z.to_pos (10 ^ (- e10))).

Definition sub : num -> num -> num := SFsub prec emax.
Definition div : num -> num -> num := SFdiv prec emax.

(** [x > y]. *)
Definition gtb (x y : num) : bool := SFltb y x.

(** Truthiness of a number: every number but [NaN], [0] and [-0]. *)
Definition truthy (x : num) : bool :=
  match x with
  | S754_nan | S754_zero _ => false
  | _ => true
  end.

(** [x || 0]. *)
Definition or_zero (x : num) : num := if truthy x then x else zero.

(** [Math.max(x, y)]: [NaN] if either is; [0] is larger than [-0]. *)
Definition Math_max (x y : num) : num :=
  match x, y with
  | S754_nan, _ | _, S754_nan => S754_nan
  | S754_zero true, S754_zero false => y
  | _, _ => if SFltb x y then y else x
  end.


Record HeirsData := mkHeirsData {
  deceasedGender : DeceasedGender;
  estateValue : num;
  currency : string;
  debts : num;
  willAmount : num;
  hasHusband : bool;
  wivesCount : Z;
  sonsCount : Z;
  daughtersCount : Z;
  hasFather : bool;
  hasMother : bool;
  fullBrothersCount : Z;
  fullSistersCount : Z;
  paternalBrothersCount : Z;
  paternalSistersCount : Z
}.

Record Share := mkShare {
  heir : string;
  amount : num;
  sharePercentage : num;
  shareFraction : string
}.

Record CalculationResponse := mkResponse {
  shares : list Share
}.

(** [netEstateCalculations] (App.tsx, lines 45-59). *)
Record NetEstate := mkNetEstate {
  ne_estate : num;
  ne_debts : num;
  ne_will : num;
  ne_net : num;
  isWillOverLimit : bool
}.

Definition netEstateCalculations (formData : HeirsData) : NetEstate :=
  let estate := or_zero (estateValue formData) in
  let debts := or_zero (debts formData) in
  let initialRemainder := Math_max zero (sub estate debts) in
  let maxWill := div estate (of_Z 3) in
  let actualWill := or_zero (willAmount formData) in
  let net := Math_max zero (sub initialRemainder actualWill) in
  {| ne_estate := estate;
     ne_debts := debts;
     ne_will := actualWill;
     ne_net := net;
     isWillOverLimit := (gtb actualWill maxWill && gtb estate zero)%bool |}.

(** An element of the list built by [individualHeirs]. *)
Module Heir.
Record t := mk {
  name : string;
  amount : num;
  percentage : num;
  fraction : string
}.
End Heir.

Definition share_matches (keywords : list string) (s : Share) : bool :=
  existsb (fun k => JS.includes (JS.toLowerCase (heir s)) (JS.toLowerCase k))
          keywords.

(** [getShare] (App.tsx, lines 65-66). *)
Definition getShare (results : CalculationResponse) (keywords : list string)
  : option Share :=
  find (share_matches keywords) (shares results).

Section IndividualHeirs.

Variable individualHeirLabels : Language -> Labels.t.

(** [individualHeirs] (App.tsx, lines 61-145). *)
Definition individualHeirs (results : option CalculationResponse)
           (formData : HeirsData) (lang : Language) : list Heir.t :=
  match results with
  | None => []
  | Some reply =>
    let results := reply in
    let list : Datatypes.list Heir.t := [] in
    let labels := individualHeirLabels lang in
    let list :=
      if hasHusband formData then
        match getShare results husband_keywords with
        | Some s => push (Heir.mk (Labels.husband labels) (amount s)
                                  (sharePercentage s) (shareFraction s)) list
        | None => list
        end
      else list in
    let list :=
      if (0 <? wivesCount formData)%Z then
        match getShare results wife_keywords with
        | Some s =>
          let individualAmount := div (amount s) (of_Z (wivesCount formData)) in
          let individualPerc :=
            div (sharePercentage s) (of_Z (wivesCount formData)) in
          for_upto (wivesCount formData)
            (fun i => push (Heir.mk
               (if (1 <? wivesCount formData)%Z
                then Labels.wife labels ++ " " ++ JS.string_of_index i
                else Labels.wife labels)
               individualAmount individualPerc (shareFraction s))) list
        | None => list
        end
      else list in
    let list :=
      if hasFather formData then
        match getShare results father_keywords with
        | Some s => push (Heir.mk (Labels.father labels) (amount s)
                                  (sharePercentage s) (shareFraction s)) list
        | None => list
        end
      else list in
    let list :=
      if hasMother formData then
        match getShare results mother_keywords with
        | Some s => push (Heir.mk (Labels.mother labels) (amount s)
                                  (sharePercentage s) (shareFraction s)) list
        | None => list
        end
      else list in
    let list :=
      if (0 <? sonsCount formData)%Z then
        match getShare results son_keywords with
        | Some s =>
          let individualAmount := div (amount s) (of_Z (sonsCount formData)) in
          let individualPerc :=
            div (sharePercentage s) (of_Z (sonsCount formData)) in
          for_upto (sonsCount formData)
            (fun i => push (Heir.mk
               (if (1 <? sonsCount formData)%Z
                then Labels.son labels ++ " " ++ JS.string_of_index i
                else Labels.son labels)
               individualAmount individualPerc (shareFraction s))) list
        | None => list
        end
      else list in
    let list :=
      if (0 <? daughtersCount formData)%Z then
        match getShare results daughter_keywords with
        | Some s =>
          let individualAmount :=
            div (amount s) (of_Z (daughtersCount formData)) in
          let individualPerc :=
            div (sharePercentage s) (of_Z (daughtersCount formData)) in
          for_upto (daughtersCount formData)
            (fun i => push (Heir.mk
               (if (1 <? daughtersCount formData)%Z
                then Labels.daughter labels ++ " " ++ JS.string_of_index i
                else Labels.daughter labels)
               individualAmount individualPerc (shareFraction s))) list
        | None => list
        end
      else list in
    let list :=
      if (0 <? fullBrothersCount formData)%Z then
        match getShare results brother_keywords with
        | Some s =>
          let individualAmount :=
            div (amount s) (of_Z (fullBrothersCount formData)) in
          let individualPerc :=
            div (sharePercentage s) (of_Z (fullBrothersCount formData)) in
          for_upto (fullBrothersCount formData)
            (fun i => push (Heir.mk
               (Labels.brother labels ++ " " ++ JS.string_of_index i)
               individualAmount individualPerc (shareFraction s))) list
        | None => list
        end
      else list in
    let list :=
      if (0 <? fullSistersCount formData)%Z then
        match getShare results sister_keywords with
        | Some s =>
          let individualAmount :=
            div (amount s) (of_Z (fullSistersCount formData)) in
          let individualPerc :=
            div (sharePercentage s) (of_Z (fullSistersCount formData)) in
          for_upto (fullSistersCount formData)
            (fun i => push (Heir.mk
               (Labels.sister labels ++ " " ++ JS.string_of_index i)
               individualAmount individualPerc (shareFraction s))) list
        | None => list
        end
      else list in
    list
  end.

End IndividualHeirs.

(** The number of heirs of a kind the form declares. *)
Definition declared (formData : HeirsData) (k : HeirKind) : Z :=
  match k with
  | KHusband => if hasHusband formData then 1 else 0
  | KWife => wivesCount formData
  | KFather => if hasFather formData then 1 else 0
  | KMother => if hasMother formData then 1 else 0
  | KSon => sonsCount formData
  | KDaughter => daughtersCount formData
  | KBrother => fullBrothersCount formData
  | KSister => fullSistersCount formData
  end%Z.

(** The entries one kind contributes to the list. *)
Definition entries (labels : Labels.t) (results : CalculationResponse)
           (formData : HeirsData) (k : HeirKind) : list Heir.t :=
  let n := declared formData k in
  if (0 <? n)%Z then
    match getShare results (keywords k) with
    | Some s =>
      if is_group k then
        map (fun i => Heir.mk (member_name labels k n i)
                              (div (amount s) (of_Z n))
                              (div (sharePercentage s) (of_Z n))
                              (shareFraction s))
            (map Z.of_nat (seq 1 (Z.to_nat n)))
      else [Heir.mk (label labels k) (amount s) (sharePercentage s)
                    (shareFraction s)]
    | None => []
    end
  else [].



Definition mkForm (estate debts will : num) (husband : bool)
           (wives sons daughters : Z) (father mother : bool)
           (fb fs pb ps : Z) : HeirsData :=
  mkHeirsData MALE estate "SAR" debts will husband wives sons daughters
              father mother fb fs pb ps.

End Double.

(** ** Inputs used in the examples *)

Definition mkInput (estate debts will : Q) (husband : bool)
           (wives sons daughters : Z) (father mother : bool)
           (fb fs pb ps : Z) : HeirsData :=
  mkHeirsData MALE estate "SAR" debts will husband wives sons daughters
              father mother fb fs pb ps.

(** The local [maxWill] of [netEstateCalculations]. *)
Definition maxWill (formData : HeirsData) : Q :=
  JS.or_zero (estateValue formData) / 3.

(** Scenario D of the specification: estate 90,000, no debts, bequest
    40,000. *)
Definition scenarioD : HeirsData :=
  mkInput 90000 0 40000 false 0 0 0 false false 0 0 0 0.

(** A form whose debts exceed the estate, with one son. *)
Definition overIndebted : HeirsData :=
  mkInput 100 200 0 false 0 1 0 false false 0 0 0 0.

Definition sonReply : CalculationResponse :=
  mkResponse [mkShare "Son" 0 100 "1/1"].

Definition englishLabels : Labels.t :=
  Labels.mk "Husband" "Wife" "Father" "Mother" "Son" "Daughter"
            "Brother" "Sister".

Definition withForm (formData : HeirsData) (st : AppState) : AppState :=
  {| st_lang := st_lang st; st_view := st_view st; st_step := st_step st;
     st_loading := st_loading st; st_results := st_results st;
     st_formData := formData; st_alerts := st_alerts st;
     st_console := st_console st |}.

(** The reply of a service that names the daughters' share by the word
    of [daughter_keywords] that [son_keywords] has a prefix of. *)
Definition daughterShare : Share := mkShare "ابنة" 60000 50 "1/2".

Definition daughterReply : CalculationResponse := mkResponse [daughterShare].

Definition threeWives : HeirsData :=
  mkInput 240000 0 0 false 3 0 0 false false 0 0 0 0.

Definition wivesReply : CalculationResponse :=
  mkResponse [mkShare "Wives" 60000 25 "1/4"].

(** A reply that names the children's share in a word none of the
    keyword lists contains. *)
Definition childrenReply : CalculationResponse :=
  mkResponse [mkShare "Children" 90000 100 "1/1"].

Definition twoSons : HeirsData :=
  mkInput 90000 0 0 false 0 2 0 false false 0 0 0 0.

(** Estate 120, debts 60, bequest 30: the bequest exceeds a third of
    what the debts leave. *)
Definition cappedBequestForm : HeirsData :=
  mkInput 120 60 30 false 0 0 0 false false 0 0 0 0.

(** Estate 90,000, debts 60,000, bequest 20,000. *)
Definition indebtedForm : HeirsData :=
  mkInput 90000 60000 20000 false 0 0 0 false false 0 0 0 0.

Definition overIndebtedState : AppState := withForm overIndebted initialState.

(** Three ways the external call can settle. *)
Definition sonService (_ : HeirsData) (_ : Language) : Settled :=
  Resolved sonReply.

Definition emptyService (_ : HeirsData) (_ : Language) : Settled :=
  Resolved (mkResponse []).

Definition failingService (_ : HeirsData) (_ : Language) : Settled :=
  Rejected "offline".

Definition arabicOnlyService (_ : HeirsData) (lang : Language) : Settled :=
  match lang with ar => Resolved sonReply | en => Rejected "offline" end.

Definition oneSon : HeirsData :=
  mkInput 120000 0 0 false 0 1 0 false false 0 0 0 0.

(** Scenario A of the specification: husband, one daughter, net estate
    120,000. *)
Definition scenarioA : HeirsData :=
  mkInput 120000 0 0 true 0 0 1 false false 0 0 0 0.

(** Scenario B of the specification: husband, two daughters, father,
    net estate 120,000. *)
Definition scenarioB : HeirsData :=
  mkInput 120000 0 0 true 0 0 2 true false 0 0 0 0.

(** The part of a number above zero, as [Math.max(0, x)] computes it:
    [x] itself when it is greater than zero, [NaN] when it is [NaN],
    and zero otherwise. *)
Definition positive_part (x : Double.num) : Double.num :=
  if Double.gtb x Double.zero then x
  else match x with S754_nan => S754_nan | _ => Double.zero end.

(** A number that is [NaN] or carries no minus sign. *)
Definition unsigned_or_nan (x : Double.num) : Prop :=
  match x with
  | S754_nan => True
  | S754_zero s | S754_infinity s | S754_finite s _ _ => s = false
  end.




(** Three wives and a reply that gives the wives 60,000, a quarter. *)
Definition threeWivesDouble : Double.HeirsData :=
  Double.mkForm (Double.of_Z 240000) Double.zero Double.zero
                false 3 0 0 false false 0 0 0 0.

Definition wivesShareDouble : Double.Share :=
  Double.mkShare "Wives" (Double.of_Z 60000) (Double.of_Z 25) "1/4".

Definition wivesReplyDouble : Double.CalculationResponse :=
  Double.mkResponse [wivesShareDouble].

(** Scenario D on binary64 numbers. *)
Definition scenarioDDouble : Double.HeirsData :=
  Double.mkForm (Double.of_Z 90000) Double.zero (Double.of_Z 40000)
                false 0 0 0 false false 0 0 0 0.

(** ** The two embeddings side by side

    A form and a reply of the exact embedding correspond to a form and
    a reply of the binary64 embedding when they declare the same heirs
    and name the same shares with the same fraction texts, whatever the
    numbers are. *)
Definition same_heirs (formData : HeirsData) (formData' : Double.HeirsData)
  : Prop :=
  forall k, declared formData k = Double.declared formData' k.

Definition same_share_texts (s : Share) (s' : Double.Share) : Prop :=
  heir s = Double.heir s' /\ shareFraction s = Double.shareFraction s'.

Definition same_texts (r : CalculationResponse)
           (r' : Double.CalculationResponse) : Prop :=
  Forall2 same_share_texts (shares r) (Double.shares r').

(** What an entry shows beside its numbers. *)
Definition texts (e : Heir.t) : string * string :=
  (Heir.name e, Heir.fraction e).

Definition texts_double (e : Double.Heir.t) : string * string :=
  (Double.Heir.name e, Double.Heir.fraction e).

(** ** The rest of the component: translation lookup and the buttons *)

Section Translate.

(** [TRANSLATIONS] of ./constants: for a key, a table from languages to
    texts; a key or a language may be missing. *)
Variable TRANSLATIONS : string -> option (Language -> option string).

(** [t] (App.tsx, line 43): [TRANSLATIONS[key]?.[lang] || key]. *)
Definition t (lang : Language) (key : string) : string :=
  match TRANSLATIONS key with
  | Some entry =>
    match entry lang with
    | Some text => if String.eqb text "" then key else text
    | None => key
    end
  | None => key
  end.

End Translate.

Definition setLang (l : Language) (st : AppState) : AppState :=
  {| st_lang := l; st_view := st_view st; st_step := st_step st;
     st_loading := st_loading st; st_results := st_results st;
     st_formData := st_formData st; st_alerts := st_alerts st;
     st_console := st_console st |}.

Definition setStep (n : Z) (st : AppState) : AppState :=
  {| st_lang := st_lang st; st_view := st_view st; st_step := n;
     st_loading := st_loading st; st_results := st_results st;
     st_formData := st_formData st; st_alerts := st_alerts st;
     st_console := st_console st |}.

Definition view_eqb (a b : View) : bool :=
  match a, b with
  | home, home | form, form | results, results => true
  | _, _ => false
  end.

(** The buttons the three render functions put on the page (lines
    177-183, 199-206, 213-217 and 234).  Pressing Calculate runs
    [handleCalculate]; the event carries what the call settles to. *)
Inductive Event :=
| ClickStart
| ClickLang (l : Language)
| ClickBack
| ClickNext
| ClickCalculate (reply : Settled)
| ClickDownloadPDF.

(** A button acts only where it is rendered: Start on the home view;
    the two language buttons on step 1 of the form; Back when
    [step > 1], Next when [step < 4], Calculate when [step === 4], all
    three on the form; Download PDF on the results view, where
    [window.print] leaves the state alone.  An invocation of
    [handleCalculate] is taken as a whole. *)
Definition fire (e : Event) (st : AppState) : option AppState :=
  match e with
  | ClickStart =>
    if view_eqb (st_view st) home then Some (setView form st) else None
  | ClickLang l =>
    if (view_eqb (st_view st) form && (st_step st =? 1)%Z)%bool
    then Some (setLang l st) else None
  | ClickBack =>
    if (view_eqb (st_view st) form && (1 <? st_step st)%Z)%bool
    then Some (setStep (st_step st - 1) st) else None
  | ClickNext =>
    if (view_eqb (st_view st) form && (st_step st <? 4)%Z)%bool
    then Some (setStep (st_step st + 1) st) else None
  | ClickCalculate reply =>
    if (view_eqb (st_view st) form && (st_step st =? 4)%Z)%bool
    then Some (handleCalculate (fun _ _ => reply) st) else None
  | ClickDownloadPDF =>
    if view_eqb (st_view st) results then Some st else None
  end.

(** A sequence of button presses, each on the state the previous one
    left. *)
Fixpoint run (events : list Event) (st : AppState) : option AppState :=
  match events with
  | [] => Some st
  | e :: rest =>
    match fire e st with
    | Some st' => run rest st'
    | None => None
    end
  end.

(** What holds of the state between button presses. *)
Definition wizard_invariant (st : AppState) : Prop :=
  (1 <= st_step st <= 4)%Z
  /\ st_loading st = false
  /\ st_formData st = initialFormData
  /\ (st_view st = results <-> st_results st <> None)
  /\ (st_view st = home -> st_step st = 1%Z).

(** How often the Next button and the Calculate button occur in a
    sequence of presses. *)
Definition is_next (e : Event) : bool :=
  match e with ClickNext => true | _ => false end.

Definition is_calculate (e : Event) : bool :=
  match e with ClickCalculate _ => true | _ => false end.

Definition presses (p : Event -> bool) (events : list Event) : Z :=
  Z.of_nat (List.length (filter p events)).

(** Through the wizard to a resolved calculation. *)
Definition throughWizard : list Event :=
  [ClickStart; ClickLang en; ClickNext; ClickNext; ClickBack; ClickNext;
   ClickNext; ClickCalculate (Resolved sonReply); ClickDownloadPDF].

(** A table with one key, translated for English only, and one key
    whose Arabic text is empty. *)
Definition sampleTranslations (key : string)
  : option (Language -> option string) :=
  if String.eqb key "start"
  then Some (fun l => match l with en => Some "Start" | ar => None end)
  else if String.eqb key "appName"
  then Some (fun l => match l with en => Some "Inheritance" | ar => Some "" end)
  else None.

(** ** Replies in another letter case, and keywords inside keywords *)

Definition lower_share (s : Share) : Share :=
  {| heir := JS.toLowerCase (heir s); amount := amount s;
     sharePercentage := sharePercentage s;
     shareFraction := shareFraction s |}.

Definition lower_reply (r : CalculationResponse) : CalculationResponse :=
  {| shares := map lower_share (shares r) |}.

(** Pairs of a kind and a keyword of another kind that contains one of
    the kind's own keywords: the wives' Arabic keywords contain the
    husband's, the sons' plural contains the father's, and one of the
    daughters' contains the sons'. *)
Definition overlapping : list (HeirKind * string) :=
  [(KHusband, "زوجة"); (KHusband, "زوجات"); (KFather, "أبناء");
   (KSon, "ابنة")].

(** ** Counting the list of individual heirs *)




(** * Properties *)

(** ** Numbers *)

Lemma or_zero_eq (x : Q) : JS.or_zero x == x.
Proof.
  unfold JS.or_zero. destruct (Qeq_bool x 0) eqn:E.
  - apply Qeq_bool_eq in E. symmetry. exact E.
  - reflexivity.
Qed.

Lemma Math_max_Qmax (x y : Q) : JS.Math_max x y == Qmax x y.
Proof.
  unfold JS.Math_max. destruct (Qle_bool x y) eqn:E.
  - apply Qle_bool_iff in E. symmetry. apply Q.max_r. exact E.
  - symmetry. apply Q.max_l. apply Qlt_le_weak. apply Qnot_le_lt.
    intro H. apply Qle_bool_iff in H. congruence.
Qed.

Lemma gtb_iff (x y : Q) : JS.gtb x y = true <-> y < x.
Proof.
  unfold JS.gtb. rewrite negb_true_iff. split.
  - intro E. apply Qnot_le_lt. intro H. apply Qle_bool_iff in H. congruence.
  - intro H. destruct (Qle_bool x y) eqn:E; [|reflexivity].
    apply Qle_bool_iff in E. apply Qlt_not_le in H. contradiction.
Qed.

Lemma net_formula (formData : HeirsData) :
  ne_net (netEstateCalculations formData)
  == Qmax 0 (Qmax 0 (estateValue formData - debts formData)
             - willAmount formData).
Proof.
  unfold netEstateCalculations. cbn [ne_net].
  rewrite !Math_max_Qmax, !or_zero_eq. reflexivity.
Qed.

(** ** Binary64 numbers *)

Lemma Math_max_zero (x : Double.num) :
  Double.Math_max Double.zero x = positive_part x.
Proof.
  unfold positive_part, Double.gtb, Double.Math_max, Double.zero.
  destruct x as [s | s | | s m e]; try destruct s; reflexivity.
Qed.

Lemma positive_part_not_below_zero (x : Double.num) :
  SFltb (positive_part x) Double.zero = false.
Proof.
  unfold positive_part, Double.gtb.
  destruct (SFltb Double.zero x) eqn:P.
  - destruct x as [s | s | | s m e]; try destruct s; try discriminate P;
      reflexivity.
  - destruct x; reflexivity.
Qed.

Lemma or_zero_positive (x : Double.num) :
  SFltb Double.zero (Double.or_zero x) = true <-> SFltb Double.zero x = true.
Proof.
  unfold Double.or_zero.
  destruct x as [s | s | | s m e]; cbn; split; congruence.
Qed.

Lemma or_zero_of_positive (x : Double.num) :
  SFltb Double.zero x = true -> Double.or_zero x = x.
Proof.
  destruct x as [s | s | | s m e]; cbn; try discriminate; reflexivity.
Qed.

Lemma binary_round_aux_sign (sx : bool) (mx ex : Z) (lx : location) :
  match binary_round_aux Double.prec Double.emax sx mx ex lx with
  | S754_nan => True
  | S754_zero s | S754_infinity s | S754_finite s _ _ => s = sx
  end.
Proof.
  unfold binary_round_aux.
  destruct (shr_fexp Double.prec Double.emax mx ex lx) as [mrs e].
  destruct (shr_fexp Double.prec Double.emax _ e loc_Exact) as [mrs' e'].
  destruct (shr_m mrs'); [reflexivity | | exact I].
  destruct (e' <=? Double.emax - Double.prec)%Z; reflexivity.
Qed.

Lemma three_is : Double.of_Z 3 = S754_finite false 6755399441055744 (-51).
Proof.
  vm_compute. reflexivity.
Qed.

Lemma third_of_positive (x : Double.num) :
  SFltb Double.zero x = true ->
  unsigned_or_nan (Double.div x (Double.of_Z 3)).
Proof.
  rewrite three_is. unfold Double.div, SFdiv.
  destruct x as [s | s | | s m e]; cbn [SFltb SFcompare Double.zero];
    try discriminate; destruct s; try discriminate; intros _.
  - reflexivity.
  - destruct (SFdiv_core_binary _ _ _ _ _ _) as [[mz ez] lz].
    pose proof (binary_round_aux_sign (xorb false false) mz ez lz) as H.
    unfold unsigned_or_nan.
    destruct (binary_round_aux _ _ _ _ _ _); exact H.
Qed.

Lemma above_unsigned_is_positive (r w : Double.num) :
  unsigned_or_nan r -> SFltb r w = true -> SFltb Double.zero w = true.
Proof.
  destruct r as [s | s | | s m e]; cbn [unsigned_or_nan];
    try (intros ->); destruct w as [sw | sw | | sw n f];
    try (destruct sw); cbn; intros;
    try reflexivity; try discriminate; try assumption.
Qed.

(** ** Net estate *)

(** C1, as amended.  For every form, on the binary64 numbers the
    component computes with, [netEstateCalculations] takes the debts
    off the estate and keeps the part above zero, then takes the bequest
    as entered off that and again keeps the part above zero: the bequest
    it reports and subtracts is the raw [willAmount] (zero for an empty
    field), whatever its size; no cap enters the net estate, which is
    never below zero. *)
Theorem net_estate_subtracts_raw_bequest (formData : Double.HeirsData) :
  let r := Double.netEstateCalculations formData in
  let initialRemainder :=
    positive_part (Double.sub (Double.or_zero (Double.estateValue formData))
                              (Double.or_zero (Double.debts formData))) in
  Double.ne_will r = Double.or_zero (Double.willAmount formData)
  /\ Double.ne_net r
     = positive_part (Double.sub initialRemainder (Double.ne_will r))
  /\ SFltb (Double.ne_net r) Double.zero = false.
Proof.
  intros r initialRemainder. subst r initialRemainder.
  unfold Double.netEstateCalculations.
  cbn [Double.ne_will Double.ne_net].
  rewrite !Math_max_zero. split; [reflexivity | split; [reflexivity|]].
  apply positive_part_not_below_zero.
Qed.

(** C1, counterexample.  With estate 120, debts 60 and bequest 30 the
    specification's calculator caps the bequest at 20 and leaves 40; the
    component leaves 30. *)
Lemma net_estate_capped_bequest_cex :
  Engine.netEstate (Engine.netEstateOf cappedBequestForm) == 40
  /\ ne_net (netEstateCalculations cappedBequestForm) == 30
  /\ ~ ne_net (netEstateCalculations cappedBequestForm)
       == Engine.netEstate (Engine.netEstateOf cappedBequestForm).
Proof.
  vm_compute. repeat split; discriminate.
Qed.

(** Estate 10^16 and debts 1: the difference is not a binary64 number
    and rounds back to 10^16, which is the net estate the component
    returns. *)
Lemma net_at_the_edge_of_precision :
  Double.ne_net
    (Double.netEstateCalculations
       (Double.mkForm (Double.lit 1 16) (Double.of_Z 1) Double.zero
                      false 0 0 0 false false 0 0 0 0))
  = Double.lit 1 16.
Proof.
  vm_compute. reflexivity.
Qed.

(** C2, as amended.  On Scenario D the component computes the limit
    30,000 and raises [isWillOverLimit], but reports the bequest as
    40,000 and a net estate of 50,000; the result has no field for an
    excess amount. *)
Theorem scenarioD_component :
  maxWill scenarioD == 30000
  /\ netEstateCalculations scenarioD
     = {| ne_estate := 90000; ne_debts := 0; ne_will := 40000;
          ne_net := 50000; isWillOverLimit := true |}.
Proof.
  split; reflexivity.
Qed.

(** C2, counterexample.  On Scenario D the bequest applied is not 30,000
    and the net estate is not 60,000. *)
Lemma scenarioD_cex :
  ~ (ne_will (netEstateCalculations scenarioD) == 30000
     /\ ne_net (netEstateCalculations scenarioD) == 60000).
Proof.
  vm_compute. intros [H _]. discriminate H.
Qed.

Lemma flag_on_raw_fields (formData : Double.HeirsData) :
  Double.isWillOverLimit (Double.netEstateCalculations formData) = true
  <-> Double.gtb (Double.willAmount formData)
                 (Double.div (Double.estateValue formData) (Double.of_Z 3))
      = true
      /\ Double.gtb (Double.estateValue formData) Double.zero = true.
Proof.
  unfold Double.netEstateCalculations. cbn [Double.isWillOverLimit].
  unfold Double.gtb. rewrite andb_true_iff, or_zero_positive. split.
  - intros [Hw He]. rewrite (or_zero_of_positive _ He) in Hw.
    pose proof (above_unsigned_is_positive _ _ (third_of_positive _ He) Hw)
      as Hpos.
    apply (proj1 (or_zero_positive _)) in Hpos.
    rewrite (or_zero_of_positive _ Hpos) in Hw. split; assumption.
  - intros [Hw He]. rewrite (or_zero_of_positive _ He).
    pose proof (above_unsigned_is_positive _ _ (third_of_positive _ He) Hw)
      as Hpos.
    rewrite (or_zero_of_positive _ Hpos). split; assumption.
Qed.

(** C3, as amended.  On the binary64 numbers of the component,
    [isWillOverLimit] is raised exactly when the bequest as entered is
    greater than the quotient [estateValue / 3], taken on the estate
    value before debts, and that value is greater than zero.  It is a
    flag in a result that is always returned; the result carries the
    bequest as entered, with no excess amount, and the net estate
    computed from it. *)
Theorem isWillOverLimit_iff (formData : Double.HeirsData) :
  let r := Double.netEstateCalculations formData in
  (Double.isWillOverLimit r = true
   <-> Double.gtb (Double.willAmount formData)
                  (Double.div (Double.estateValue formData) (Double.of_Z 3))
       = true
       /\ Double.gtb (Double.estateValue formData) Double.zero = true)
  /\ Double.ne_will r = Double.or_zero (Double.willAmount formData)
  /\ Double.ne_net r
     = positive_part
         (Double.sub
            (positive_part
               (Double.sub (Double.or_zero (Double.estateValue formData))
                           (Double.or_zero (Double.debts formData))))
            (Double.ne_will r)).
Proof.
  intro r. subst r. split; [apply flag_on_raw_fields|].
  unfold Double.netEstateCalculations.
  cbn [Double.ne_will Double.ne_net]. rewrite !Math_max_zero.
  split; reflexivity.
Qed.

(** Estate 5 and bequest 1.6666666666666667: the quotient 5 / 3 rounds
    to the very number entered, so the flag stays down. *)
Lemma flag_at_rounded_third :
  Double.div (Double.of_Z 5) (Double.of_Z 3)
  = Double.lit 16666666666666667 (-16)
  /\ Double.isWillOverLimit
       (Double.netEstateCalculations
          (Double.mkForm (Double.of_Z 5) Double.zero
                         (Double.lit 16666666666666667 (-16))
                         false 0 0 0 false false 0 0 0 0))
     = false.
Proof.
  split; vm_compute; reflexivity.
Qed.

(** C3, counterexample.  With estate 90,000, debts 60,000 and bequest
    20,000 the bequest exceeds one third of the debts-reduced estate
    (10,000), yet the flag is not raised. *)
Lemma isWillOverLimit_debts_cex :
  Qmax 0 (estateValue indebtedForm - debts indebtedForm) / 3
  < willAmount indebtedForm
  /\ isWillOverLimit (netEstateCalculations indebtedForm) = false
  /\ Engine.ne_warnings (Engine.netEstateOf indebtedForm)
     = [Engine.BequestCapped (20000 - 30000 / 3)]
  /\ ~ (isWillOverLimit (netEstateCalculations indebtedForm) = true
        <-> Qmax 0 (estateValue indebtedForm - debts indebtedForm) / 3
            < willAmount indebtedForm).
Proof.
  split; [reflexivity | split; [reflexivity | split; [reflexivity |]]].
  intros [_ H]. assert (E : false = true) by (apply H; reflexivity).
  discriminate E.
Qed.

(** The inputs of the examples above are whole numbers, which binary64
    holds exactly; the binary64 embedding returns the same figures for
    them: net 30 for estate 120, debts 60, bequest 30; net 50,000 and a
    raised flag on Scenario D; no flag for estate 90,000, debts 60,000,
    bequest 20,000; net 0 when debts 200 exceed an estate of 100. *)
Lemma examples_on_binary64 :
  Double.ne_net
    (Double.netEstateCalculations
       (Double.mkForm (Double.of_Z 120) (Double.of_Z 60) (Double.of_Z 30)
                      false 0 0 0 false false 0 0 0 0))
  = Double.of_Z 30
  /\ Double.ne_net (Double.netEstateCalculations scenarioDDouble)
     = Double.of_Z 50000
  /\ Double.isWillOverLimit (Double.netEstateCalculations scenarioDDouble)
     = true
  /\ Double.isWillOverLimit
       (Double.netEstateCalculations
          (Double.mkForm (Double.of_Z 90000) (Double.of_Z 60000)
                         (Double.of_Z 20000)
                         false 0 0 0 false false 0 0 0 0))
     = false
  /\ Double.ne_net
       (Double.netEstateCalculations
          (Double.mkForm (Double.of_Z 100) (Double.of_Z 200) Double.zero
                         false 0 1 0 false false 0 0 0 0))
     = Double.zero.
Proof.
  repeat split; vm_compute; reflexivity.
Qed.

(** ** The handler and the service *)

Lemma handleCalculate_unfold
      (calculateInheritance : HeirsData -> Language -> Settled)
      (st : AppState) :
  handleCalculate calculateInheritance st
  = match calculateInheritance (st_formData st) (st_lang st) with
    | Resolved res =>
      {| st_lang := st_lang st; st_view := results; st_step := st_step st;
         st_loading := false; st_results := Some res;
         st_formData := st_formData st; st_alerts := st_alerts st;
         st_console := st_console st |}
    | Rejected error =>
      {| st_lang := st_lang st; st_view := st_view st; st_step := st_step st;
         st_loading := false; st_results := st_results st;
         st_formData := st_formData st;
         st_alerts :=
           st_alerts st
           ++ ["Error calculating distribution. Please try again."];
         st_console := st_console st ++ [error] |}
    end.
Proof.
  unfold handleCalculate. cbn.
  destruct (calculateInheritance (st_formData st) (st_lang st)); reflexivity.
Qed.

(** C4, as amended.  The component validates nothing.  For every form
    whose debts exceed the estate value, [netEstateCalculations] still
    returns a result, whose net estate is 0 when the bequest is not
    negative, and [handleCalculate] still passes the form to the
    service: when the call resolves, the reply is stored and the results
    view is shown.  The handler never changes the form. *)
Theorem debts_over_estate_not_rejected
        (calculateInheritance : HeirsData -> Language -> Settled)
        (st : AppState)
        (Hdebts : estateValue (st_formData st) < debts (st_formData st)) :
  ne_net (netEstateCalculations (st_formData st))
  == Qmax 0 (- willAmount (st_formData st))
  /\ (0 <= willAmount (st_formData st) ->
      ne_net (netEstateCalculations (st_formData st)) == 0)
  /\ st_formData (handleCalculate calculateInheritance st) = st_formData st
  /\ forall res,
       calculateInheritance (st_formData st) (st_lang st) = Resolved res ->
       st_results (handleCalculate calculateInheritance st) = Some res
       /\ st_view (handleCalculate calculateInheritance st) = results.
Proof.
  assert (E : Qmax 0 (estateValue (st_formData st) - debts (st_formData st))
              == 0) by (apply Q.max_l; lra).
  assert (N : ne_net (netEstateCalculations (st_formData st))
              == Qmax 0 (- willAmount (st_formData st))).
  { rewrite net_formula, E.
    apply Q.max_compat; [reflexivity | ring]. }
  split; [exact N | split; [|split]].
  - intro Hw. rewrite N. apply Q.max_l. lra.
  - rewrite handleCalculate_unfold.
    destruct (calculateInheritance (st_formData st) (st_lang st)); reflexivity.
  - intros res Hres. rewrite handleCalculate_unfold, Hres. split; reflexivity.
Qed.

Lemma debts_over_estate_not_rejected_witness :
  estateValue (st_formData overIndebtedState)
  < debts (st_formData overIndebtedState)
  /\ ne_net (netEstateCalculations (st_formData overIndebtedState)) == 0.
Proof.
  split.
  - reflexivity.
  - apply (debts_over_estate_not_rejected sonService overIndebtedState);
      [reflexivity|].
    discriminate.
Defined.

(** C4, counterexample.  Debts 200 against an estate of 100: the
    specification's validator rejects the form on the field debts; the
    component returns a net estate, calls the service, shows the results
    view and lists the son. *)
Lemma debts_over_estate_cex :
  Engine.validate overIndebted
  = inl (Engine.mkValidationError Engine.F_debts)
  /\ netEstateCalculations overIndebted
     = {| ne_estate := 100; ne_debts := 200; ne_will := 0; ne_net := 0;
          isWillOverLimit := false |}
  /\ st_view (handleCalculate sonService overIndebtedState) = results
  /\ individualHeirs
       (fun _ => englishLabels)
       (st_results (handleCalculate sonService overIndebtedState))
       (st_formData (handleCalculate sonService overIndebtedState))
       (st_lang (handleCalculate sonService overIndebtedState))
     = [Heir.mk "Son" (0 / 1) (100 / 1) "1/1"].
Proof.
  repeat split.
Qed.

(** C6, as amended.  The outcome of [handleCalculate] is a function of
    the prior state and of what the call to the external service
    [calculateInheritance] settles to for the form and the language: two
    runs from the same state whose calls settle alike end in the same
    state.  What is stored is what the service answers: a resolved reply
    is stored as the result and shown; a rejection leaves the earlier
    result and view and is logged. *)
Theorem handleCalculate_determined_by_reply
        (service1 service2 : HeirsData -> Language -> Settled)
        (st : AppState)
        (Hreply : service1 (st_formData st) (st_lang st)
                  = service2 (st_formData st) (st_lang st)) :
  handleCalculate service1 st = handleCalculate service2 st
  /\ match service1 (st_formData st) (st_lang st) with
     | Resolved res =>
       st_results (handleCalculate service1 st) = Some res
       /\ st_view (handleCalculate service1 st) = results
     | Rejected error =>
       st_results (handleCalculate service1 st) = st_results st
       /\ st_view (handleCalculate service1 st) = st_view st
       /\ st_console (handleCalculate service1 st)
          = (st_console st ++ [error])%list
     end.
Proof.
  split.
  - rewrite !handleCalculate_unfold, Hreply. reflexivity.
  - rewrite handleCalculate_unfold.
    destruct (service1 (st_formData st) (st_lang st)); cbn; repeat split.
Qed.

Lemma handleCalculate_determined_by_reply_witness :
  sonService (st_formData initialState) (st_lang initialState)
  = arabicOnlyService (st_formData initialState) (st_lang initialState)
  /\ handleCalculate sonService initialState
     = handleCalculate arabicOnlyService initialState
  /\ st_results (handleCalculate sonService initialState) = Some sonReply.
Proof.
  split; [reflexivity|].
  pose proof (handleCalculate_determined_by_reply
                sonService arabicOnlyService initialState eq_refl) as [H1 H2].
  split; [exact H1 | exact (proj1 H2)].
Defined.

(** C6, counterexample.  Same state, same form, same language: the
    stored result is whatever the external call answers, so two runs
    whose calls answer differently differ, and a run whose call fails
    stores nothing. *)
Lemma handleCalculate_depends_on_service_cex :
  st_results (handleCalculate sonService initialState)
  <> st_results (handleCalculate emptyService initialState)
  /\ st_results (handleCalculate failingService initialState) = None
  /\ ~ (forall (s1 s2 : HeirsData -> Language -> Settled) (st : AppState),
         handleCalculate s1 st = handleCalculate s2 st).
Proof.
  split; [|split].
  - cbn. discriminate.
  - reflexivity.
  - intro H. specialize (H sonService emptyService initialState).
    apply (f_equal st_results) in H. cbn in H. discriminate.
Qed.

(** ** Substring search *)

Lemma prefix_app (k s : string) :
  String.prefix k s = true <-> exists b, s = k ++ b.
Proof.
  revert s. induction k as [|c k IH]; intros s.
  - split; [intros _; exists s; reflexivity | intros _; destruct s; reflexivity].
  - destruct s as [|d s]; cbn.
    + split; [discriminate | intros [b Hb]; discriminate].
    + destruct (ascii_dec c d) as [->|Hcd].
      * rewrite IH. split.
        -- intros [b ->]. exists b. reflexivity.
        -- intros [b Hb]. injection Hb as ->. exists b. reflexivity.
      * split; [discriminate|].
        intros [b Hb]. injection Hb as Hd _. congruence.
Qed.

Lemma includes_unfold (s k : string) :
  JS.includes s k
  = if String.prefix k s then true
    else match s with
         | EmptyString => false
         | String _ r => JS.includes r k
         end.
Proof.
  destruct s; reflexivity.
Qed.

(** [includes] finds exactly the contiguous occurrences. *)
Lemma includes_spec (s k : string) :
  JS.includes s k = true <-> exists a b, s = a ++ k ++ b.
Proof.
  induction s as [|c s IH]; rewrite includes_unfold.
  - destruct (String.prefix k "") eqn:P.
    + apply prefix_app in P. destruct P as [b Hb].
      split; [intros _; exists "", b; exact Hb | reflexivity].
    + split; [discriminate|].
      intros [a [b Hab]]. destruct a; [|discriminate].
      cbn in Hab. assert (String.prefix k "" = true)
        by (apply prefix_app; exists b; exact Hab).
      congruence.
  - destruct (String.prefix k (String c s)) eqn:P.
    + apply prefix_app in P. destruct P as [b Hb].
      split; [intros _; exists "", b; exact Hb | reflexivity].
    + rewrite IH. split.
      * intros [a [b ->]]. exists (String c a), b. reflexivity.
      * intros [a [b Hab]]. destruct a as [|d a].
        -- cbn in Hab. assert (String.prefix k (String c s) = true)
             by (apply prefix_app; exists b; exact Hab).
           congruence.
        -- injection Hab as _ ->. exists a, b. reflexivity.
Qed.

Lemma share_matches_spec (kws : list string) (s : Share) :
  share_matches kws s = true
  <-> exists k a b, In k kws
        /\ JS.toLowerCase (heir s) = a ++ JS.toLowerCase k ++ b.
Proof.
  unfold share_matches. rewrite existsb_exists. split.
  - intros [k [Hin Hk]]. apply includes_spec in Hk.
    destruct Hk as [a [b Hab]]. exists k, a, b. split; assumption.
  - intros [k [a [b [Hin Hab]]]]. exists k. split; [assumption|].
    apply includes_spec. exists a, b. exact Hab.
Qed.

Lemma find_first {A : Type} (p : A -> bool) (l : list A) (x : A) :
  find p l = Some x
  <-> exists before after,
        l = (before ++ x :: after)%list
        /\ Forall (fun y => p y = false) before /\ p x = true.
Proof.
  induction l as [|y l IH]; cbn.
  - split; [discriminate|]. intros [b [a [H _]]]. destruct b; discriminate.
  - destruct (p y) eqn:Py.
    + split.
      * intros [= ->]. exists [], l. repeat split; [constructor | exact Py].
      * intros [b [a [H [Hb Hx]]]]. destruct b as [|z b].
        -- cbn in H. congruence.
        -- injection H as -> _. inversion Hb; subst. congruence.
    + rewrite IH. split.
      * intros [b [a [-> [Hb Hx]]]]. exists (y :: b), a.
        repeat split; [constructor; assumption | exact Hx].
      * intros [b [a [H [Hb Hx]]]]. destruct b as [|z b].
        -- cbn in H. injection H as -> _. congruence.
        -- injection H as -> ->. inversion Hb; subst.
           exists b, a. repeat split; assumption.
Qed.

(** ** Looking a class up among the shares *)

(** C7, as amended.  The component finds the share of a class by text:
    [getShare] returns the first share, in the order of the reply, whose
    lower-cased heir name contains one of the lower-cased keywords of
    the class as a substring; it returns nothing exactly when no name
    does. *)
Theorem getShare_first_substring_match
        (r : CalculationResponse) (kws : list string) :
  (forall s,
     getShare r kws = Some s
     <-> exists before after,
           shares r = (before ++ s :: after)%list
           /\ Forall (fun x => share_matches kws x = false) before
           /\ exists k a b,
                In k kws
                /\ JS.toLowerCase (heir s) = a ++ JS.toLowerCase k ++ b)
  /\ (getShare r kws = None
      <-> Forall (fun x => share_matches kws x = false) (shares r)).
Proof.
  split.
  - intro s. unfold getShare. rewrite find_first.
    split; intros [before [after [H1 [H2 H3]]]]; exists before, after;
      (split; [exact H1 | split; [exact H2 |]]);
      apply share_matches_spec; exact H3.
  - unfold getShare. rewrite Forall_forall. split.
    + intros H x Hx. destruct (share_matches kws x) eqn:E; [|reflexivity].
      pose proof (find_none _ _ H x Hx) as F. cbn in F. congruence.
    + intro H. destruct (find (share_matches kws) (shares r)) eqn:F;
        [|reflexivity].
      apply find_some in F. destruct F as [Hin Hm].
      rewrite (H _ Hin) in Hm. discriminate.
Qed.

(** C7, counterexample.  One and the same share answers the lookup of
    two classes: the share named by the daughters' keyword is found for
    the sons as well, because the sons' keyword is a substring of it.
    With one son and no daughter declared, the list shows a son holding
    the daughters' 60,000.  A lookup by class tag could not do this. *)
Lemma getShare_by_class_cex :
  getShare daughterReply (keywords KDaughter) = Some daughterShare
  /\ getShare daughterReply (keywords KSon) = Some daughterShare
  /\ KSon <> KDaughter
  /\ individualHeirs (fun _ => englishLabels) (Some daughterReply) oneSon ar
     = [Heir.mk "Son" (60000 / 1) (50 / 1) "1/2"]
  /\ ~ (forall (r : CalculationResponse) (k1 k2 : HeirKind) (x : Share),
          getShare r (keywords k1) = Some x ->
          getShare r (keywords k2) = Some x -> k1 = k2).
Proof.
  split; [reflexivity | split; [reflexivity | split; [discriminate |]]].
  split; [reflexivity|].
  intro H.
  specialize (H daughterReply KSon KDaughter daughterShare eq_refl eq_refl).
  discriminate.
Qed.

(** ** The list of individual heirs, kind by kind *)

Lemma for_upto_push {A : Type} (n : Z) (f : Z -> A) (l : list A) :
  for_upto n (fun i => push (f i)) l
  = (l ++ map f (map Z.of_nat (seq 1 (Z.to_nat n))))%list.
Proof.
  unfold for_upto. generalize (map Z.of_nat (seq 1 (Z.to_nat n))) as idx.
  intro idx. revert l. induction idx as [|i idx IH]; intro l; cbn.
  - symmetry. apply app_nil_r.
  - rewrite IH. unfold push. rewrite <- app_assoc. reflexivity.
Qed.

(** Turns the outermost [let] of the left-hand side into a local
    definition, so that the chain of updates of [list] can be followed
    one update at a time. *)
Ltac name_let v :=
  match goal with
  | |- (let x := ?a in @?f x) = ?rhs =>
    pose (v := a); change (f v = rhs); cbv beta
  end.

(** One update of [list] appends the entries of one kind. *)
Ltac one_kind v :=
  unfold v, entries;
  cbn [declared keywords is_group label member_name];
  repeat (change (0 <? 1)%Z with true; cbv iota);
  repeat (change (0 <? 0)%Z with false; cbv iota);
  repeat match goal with
         | |- context [if ?c then _ else _] =>
           destruct c;
           repeat (change (0 <? 1)%Z with true; cbv iota);
           repeat (change (0 <? 0)%Z with false; cbv iota)
         | |- context [match getShare ?r ?k with _ => _ end] =>
           destruct (getShare r k)
         end;
  cbv zeta; rewrite ?for_upto_push; unfold push; rewrite ?app_nil_r;
  reflexivity.

Lemma individualHeirs_blocks
      (individualHeirLabels : Language -> Labels.t)
      (r : CalculationResponse) (formData : HeirsData) (lang : Language) :
  individualHeirs individualHeirLabels (Some r) formData lang
  = flat_map (entries (individualHeirLabels lang) r formData) all_kinds.
Proof.
  cbv beta iota delta [individualHeirs].
  name_let l0. name_let labels.
  name_let l1. name_let l2. name_let l3. name_let l4.
  name_let l5. name_let l6. name_let l7. name_let l8.
  assert (H1 : l1 = (l0 ++ entries labels r formData KHusband)%list)
    by one_kind l1.
  assert (H2 : l2 = (l1 ++ entries labels r formData KWife)%list)
    by one_kind l2.
  assert (H3 : l3 = (l2 ++ entries labels r formData KFather)%list)
    by one_kind l3.
  assert (H4 : l4 = (l3 ++ entries labels r formData KMother)%list)
    by one_kind l4.
  assert (H5 : l5 = (l4 ++ entries labels r formData KSon)%list)
    by one_kind l5.
  assert (H6 : l6 = (l5 ++ entries labels r formData KDaughter)%list)
    by one_kind l6.
  assert (H7 : l7 = (l6 ++ entries labels r formData KBrother)%list)
    by one_kind l7.
  assert (H8 : l8 = (l7 ++ entries labels r formData KSister)%list)
    by one_kind l8.
  rewrite H8, H7, H6, H5, H4, H3, H2, H1. subst l0 labels.
  cbn [flat_map all_kinds app]. rewrite app_nil_r, <- !app_assoc.
  reflexivity.
Qed.



(** ** Even split *)

(** One update of [list], on binary64 numbers. *)
Ltac one_kind_double v :=
  unfold v, Double.entries;
  cbn [Double.declared keywords is_group label member_name];
  repeat (change (0 <? 1)%Z with true; cbv iota);
  repeat (change (0 <? 0)%Z with false; cbv iota);
  repeat match goal with
         | |- context [if ?c then _ else _] =>
           destruct c;
           repeat (change (0 <? 1)%Z with true; cbv iota);
           repeat (change (0 <? 0)%Z with false; cbv iota)
         | |- context [match Double.getShare ?r ?k with _ => _ end] =>
           destruct (Double.getShare r k)
         end;
  cbv zeta; rewrite ?for_upto_push; unfold push; rewrite ?app_nil_r;
  reflexivity.

Lemma individualHeirs_blocks_double
      (individualHeirLabels : Language -> Labels.t)
      (r : Double.CalculationResponse) (formData : Double.HeirsData)
      (lang : Language) :
  Double.individualHeirs individualHeirLabels (Some r) formData lang
  = flat_map (Double.entries (individualHeirLabels lang) r formData)
             all_kinds.
Proof.
  cbv beta iota delta [Double.individualHeirs].
  name_let rs.
  name_let l0. name_let labels.
  name_let l1. name_let l2. name_let l3. name_let l4.
  name_let l5. name_let l6. name_let l7. name_let l8.
  subst rs.
  assert (H1 : l1 = (l0 ++ Double.entries labels r formData KHusband)%list)
    by one_kind_double l1.
  assert (H2 : l2 = (l1 ++ Double.entries labels r formData KWife)%list)
    by one_kind_double l2.
  assert (H3 : l3 = (l2 ++ Double.entries labels r formData KFather)%list)
    by one_kind_double l3.
  assert (H4 : l4 = (l3 ++ Double.entries labels r formData KMother)%list)
    by one_kind_double l4.
  assert (H5 : l5 = (l4 ++ Double.entries labels r formData KSon)%list)
    by one_kind_double l5.
  assert (H6 : l6 = (l5 ++ Double.entries labels r formData KDaughter)%list)
    by one_kind_double l6.
  assert (H7 : l7 = (l6 ++ Double.entries labels r formData KBrother)%list)
    by one_kind_double l7.
  assert (H8 : l8 = (l7 ++ Double.entries labels r formData KSister)%list)
    by one_kind_double l8.
  rewrite H8, H7, H6, H5, H4, H3, H2, H1. subst l0 labels.
  cbn [flat_map all_kinds app]. rewrite app_nil_r, <- !app_assoc.
  reflexivity.
Qed.




(** ** The two embeddings list the same heirs *)

Lemma getShare_same_texts (r : CalculationResponse)
      (r' : Double.CalculationResponse) (kws : list string) :
  same_texts r r' ->
  match getShare r kws, Double.getShare r' kws with
  | Some s, Some s' => same_share_texts s s'
  | None, None => True
  | _, _ => False
  end.
Proof.
  unfold same_texts, getShare, Double.getShare.
  induction 1 as [|s s' l l' [Hn Hf] _ IH]; cbn [find]; [exact I|].
  assert (E : share_matches kws s = Double.share_matches kws s')
    by (unfold share_matches, Double.share_matches; rewrite Hn; reflexivity).
  rewrite <- E. destruct (share_matches kws s); [|exact IH].
  split; assumption.
Qed.

Lemma entries_same_texts (labels : Labels.t) (r : CalculationResponse)
      (r' : Double.CalculationResponse) (formData : HeirsData)
      (formData' : Double.HeirsData) (k : HeirKind) :
  same_heirs formData formData' -> same_texts r r' ->
  map texts (entries labels r formData k)
  = map texts_double (Double.entries labels r' formData' k).
Proof.
  intros Hh Ht. unfold entries, Double.entries. rewrite <- (Hh k).
  destruct (0 <? declared formData k)%Z; [|reflexivity].
  pose proof (getShare_same_texts r r' (keywords k) Ht) as G.
  destruct (getShare r (keywords k)) as [s|],
           (Double.getShare r' (keywords k)) as [s'|];
    try contradiction; [|reflexivity].
  destruct G as [_ Hf].
  destruct (is_group k).
  - rewrite !map_map. apply map_ext. intro i.
    unfold texts, texts_double. cbn. rewrite Hf. reflexivity.
  - unfold texts, texts_double. cbn. rewrite Hf. reflexivity.
Qed.

(** Which heirs are listed, in which order, under which names and with
    which fraction texts does not depend on the arithmetic: on
    corresponding inputs the exact and the binary64 embedding agree on
    all of it. *)
Lemma embeddings_list_the_same_heirs
      (individualHeirLabels : Language -> Labels.t)
      (r : CalculationResponse) (r' : Double.CalculationResponse)
      (formData : HeirsData) (formData' : Double.HeirsData)
      (lang : Language) :
  same_heirs formData formData' -> same_texts r r' ->
  map texts (individualHeirs individualHeirLabels (Some r) formData lang)
  = map texts_double
        (Double.individualHeirs individualHeirLabels (Some r') formData'
                                lang).
Proof.
  intros Hh Ht.
  rewrite individualHeirs_blocks, individualHeirs_blocks_double.
  induction all_kinds as [|k ks IH]; cbn [flat_map map]; [reflexivity|].
  rewrite !map_app, IH, (entries_same_texts _ r r' formData formData' k Hh Ht).
  reflexivity.
Qed.

(** ** Which heirs can appear *)

Lemma entries_names (labels : Labels.t) (r : CalculationResponse)
      (formData : HeirsData) (k : HeirKind) (e : Heir.t) :
  In e (entries labels r formData k) ->
  Heir.name e = label labels k
  \/ exists i, (1 <= i <= declared formData k)%Z
       /\ Heir.name e = label labels k ++ " " ++ JS.string_of_index i.
Proof.
  unfold entries.
  destruct (0 <? declared formData k)%Z; [|contradiction].
  destruct (getShare r (keywords k)) as [s|]; [|contradiction].
  destruct (is_group k) eqn:G.
  - intro He. apply in_map_iff in He. destruct He as [i [<- Hi]].
    apply in_map_iff in Hi. destruct Hi as [j [<- Hj]].
    apply in_seq in Hj. cbn [Heir.name].
    assert (Hr : (1 <= Z.of_nat j <= declared formData k)%Z) by lia.
    destruct k; try discriminate G; cbn [member_name];
      try (destruct (1 <? _)%Z; [|left; reflexivity]);
      right; exists (Z.of_nat j); (split; [exact Hr | reflexivity]).
  - intros [<- | []]. left. reflexivity.
Qed.

Lemma entries_with_paternal (labels : Labels.t) (r : CalculationResponse)
      (formData : HeirsData) (pb ps : Z) (k : HeirKind) :
  entries labels r (with_paternal formData pb ps) k
  = entries labels r formData k.
Proof.
  destruct k; reflexivity.
Qed.

(** C9.  Every entry of the list is named after one of the eight labels
    husband, wife, father, mother, son, daughter, brother (full) and
    sister (full), bare or followed by a member index; and the list does
    not depend on the two paternal-sibling counts of the form: whatever
    they are, and whatever shares the reply holds, the list is the one
    obtained with any other paternal counts, so no entry is ever made
    for a paternal brother or sister. *)
Theorem no_paternal_sibling_entries
        (individualHeirLabels : Language -> Labels.t)
        (res : option CalculationResponse) (formData : HeirsData)
        (lang : Language) :
  (forall e,
     In e (individualHeirs individualHeirLabels res formData lang) ->
     exists k,
       Heir.name e = label (individualHeirLabels lang) k
       \/ exists i, (1 <= i <= declared formData k)%Z
            /\ Heir.name e
               = label (individualHeirLabels lang) k
                 ++ " " ++ JS.string_of_index i)
  /\ (forall pb ps,
        individualHeirs individualHeirLabels res
                        (with_paternal formData pb ps) lang
        = individualHeirs individualHeirLabels res formData lang).
Proof.
  destruct res as [r|].
  - split.
    + intros e He. rewrite individualHeirs_blocks in He.
      apply in_flat_map in He. destruct He as [k [_ Hk]].
      exists k. eapply entries_names. exact Hk.
    + intros pb ps. rewrite !individualHeirs_blocks.
      apply flat_map_ext. intro k. apply entries_with_paternal.
  - split.
    + intros e [].
    + reflexivity.
Qed.

(** ** Unmatched classes *)

Lemma entries_without_same (labels : Labels.t) (r : CalculationResponse)
      (formData : HeirsData) (k : HeirKind) :
  entries labels r (without k formData) k = [].
Proof.
  destruct k; reflexivity.
Qed.

Lemma entries_without_other (labels : Labels.t) (r : CalculationResponse)
      (formData : HeirsData) (k k' : HeirKind) :
  k' <> k ->
  entries labels r (without k formData) k' = entries labels r formData k'.
Proof.
  destruct k, k'; intro H; try congruence; reflexivity.
Qed.

(** C10.  When heirs of a kind are declared but no share of the reply
    matches the keywords of the kind, the kind contributes no entry: the
    list is the one the component builds for the same form without that
    kind.  The list is all the function returns, so nothing reports the
    omission, and the amounts listed can add up to less than the net
    estate: two sons and a reply whose only share is named "Children"
    give an empty list against a net estate of 90,000. *)
Theorem unmatched_kind_omitted
        (individualHeirLabels : Language -> Labels.t)
        (r : CalculationResponse) (formData : HeirsData) (lang : Language)
        (k : HeirKind)
        (Hcount : (0 < declared formData k)%Z)
        (Hnone : getShare r (keywords k) = None) :
  entries (individualHeirLabels lang) r formData k = []
  /\ individualHeirs individualHeirLabels (Some r) formData lang
     = individualHeirs individualHeirLabels (Some r) (without k formData) lang
  /\ (individualHeirs individualHeirLabels (Some childrenReply) twoSons lang
      = []
      /\ total_amount
           (individualHeirs individualHeirLabels (Some childrenReply)
                            twoSons lang)
         < ne_net (netEstateCalculations twoSons)).
Proof.
  assert (E : entries (individualHeirLabels lang) r formData k = []).
  { unfold entries. rewrite Hnone.
    destruct (0 <? declared formData k)%Z; reflexivity. }
  split; [exact E | split].
  - rewrite !individualHeirs_blocks. unfold all_kinds. cbn [flat_map].
    destruct k; rewrite E, entries_without_same;
      rewrite !entries_without_other by discriminate; reflexivity.
  - split; reflexivity.
Qed.

Lemma unmatched_kind_omitted_witness :
  (0 < declared twoSons KSon)%Z
  /\ getShare childrenReply (keywords KSon) = None
  /\ individualHeirs (fun _ => englishLabels) (Some childrenReply) twoSons en
     = individualHeirs (fun _ => englishLabels) (Some childrenReply)
                       (without KSon twoSons) en.
Proof.
  split; [reflexivity | split; [reflexivity|]].
  apply (unmatched_kind_omitted (fun _ => englishLabels) childrenReply
                                twoSons en KSon); reflexivity.
Defined.

(** ** The engine on the specification's scenarios *)

(** Scenario B: the fixed fractions 1/4, 2/3 and 1/6 add up to 13/12;
    awl brings them to 3/13, 8/13 and 2/13, and the class amounts add up
    to the net estate. *)
Lemma scenarioB_awl :
  match Engine.compute scenarioB with
  | inr r =>
    Engine.correction scenarioB = Engine.Awl
    /\ Engine.normalized scenarioB Engine.Husband == 3 # 13
    /\ Engine.normalized scenarioB Engine.DaughterGroup == 8 # 13
    /\ Engine.normalized scenarioB Engine.Father == 2 # 13
    /\ Engine.classTotal r == Engine.netEstate (Engine.dr_netEstate r)
  | inl _ => False
  end.
Proof.
  vm_compute. repeat split.
Qed.

(** Scenario A: husband 1/4 and daughter 1/2 leave a quarter with no
    residuary heir; radd brings the daughter to 3/4, that is 90,000
    beside the husband's 30,000, and nothing is left unresolved. *)
Lemma scenarioA_radd :
  match Engine.compute scenarioA with
  | inr r =>
    Engine.warnings r = []
    /\ Engine.correction scenarioA = Engine.Radd
    /\ Engine.normalized scenarioA Engine.Husband == 1 # 4
    /\ Engine.normalized scenarioA Engine.DaughterGroup == 3 # 4
    /\ Engine.cs_amount (Engine.classShareOf scenarioA Engine.Husband)
       == 30000
    /\ Engine.cs_amount (Engine.classShareOf scenarioA Engine.DaughterGroup)
       == 90000
    /\ Engine.classTotal r == 120000
  | inl _ => False
  end.
Proof.
  vm_compute. repeat split.
Qed.

(** ** Conservation in the engine *)

Section EngineConservation.

Import Engine.

Variable i : EstateInput.

Lemma Qdiv_nonneg (a b : Q) : 0 <= a -> 0 <= b -> 0 <= a / b.
Proof.
  intros Ha Hb. unfold Qdiv. apply Qmult_le_0_compat; [exact Ha|].
  apply Qinv_le_0_compat. exact Hb.
Qed.

Lemma heads_nonneg (c : HeirClass) : 0 <= heads i c.
Proof.
  unfold heads, present, status.
  destruct (memberCount i c <=? 0)%Z eqn:E; [apply Qle_refl|].
  apply Z.leb_gt in E.
  assert (0 <= inject_Z (memberCount i c))
    by (unfold Qle; cbn; lia).
  repeat match goal with
         | |- context [if ?b then _ else _] => destruct b
         | |- context [match ?x with _ => _ end] => destruct x
         end; first [assumption | apply Qle_refl].
Qed.
Lemma present_heads (c : HeirClass) : present i c = true -> 0 < heads i c.
Proof.
  unfold heads. intro P. rewrite P.
  unfold present, status in P.
  destruct (memberCount i c <=? 0)%Z eqn:E; [discriminate|].
  apply Z.leb_gt in E. unfold Qlt. cbn. lia.
Qed.

Lemma residuePortion_nonneg (c : HeirClass) : 0 <= residuePortion i c.
Proof.
  pose proof (heads_nonneg SonGroup). pose proof (heads_nonneg DaughterGroup).
  pose proof (heads_nonneg FullBrotherGroup).
  pose proof (heads_nonneg FullSisterGroup).
  pose proof (heads_nonneg PaternalBrotherGroup).
  pose proof (heads_nonneg PaternalSisterGroup).
  unfold residuePortion.
  destruct (residuary i), c;
    first [apply Qle_refl | discriminate | apply Qdiv_nonneg; lra].
Qed.

Lemma fixedOrZero_nonneg (c : HeirClass) : 0 <= fixedOrZero i c.
Proof.
  unfold fixedOrZero, fixedShare.
  destruct (negb (present i c)); [apply Qle_refl|].
  destruct c;
    repeat match goal with
           | |- context [if ?b then _ else _] => destruct b
           end; discriminate.
Qed.

Lemma awarded_nonneg (c : HeirClass) : 0 <= awarded i c.
Proof.
  unfold awarded.
  pose proof (fixedOrZero_nonneg c) as F.
  pose proof (residuePortion_nonneg c) as P.
  destruct (JS.gtb (remainder i) 0) eqn:G.
  - apply gtb_iff in G.
    assert (0 <= remainder i * residuePortion i c)
      by (apply Qmult_le_0_compat; lra).
    lra.
  - lra.
Qed.

Lemma Qsum_filter_positive (f : HeirClass -> Q) (l : list HeirClass) :
  (forall c, 0 <= f c) ->
  Qsum (map f (filter (fun c => JS.gtb (f c) 0) l)) == Qsum (map f l).
Proof.
  intro Hf. induction l as [|c l IH]; [reflexivity|].
  cbn [filter]. destruct (JS.gtb (f c) 0) eqn:G; cbn [map Qsum fold_right].
  - fold (Qsum (map f (filter (fun c => JS.gtb (f c) 0) l))).
    fold (Qsum (map f l)). rewrite IH. reflexivity.
  - fold (Qsum (map f l)). rewrite IH.
    assert (~ 0 < f c) by (rewrite <- gtb_iff; congruence).
    pose proof (Hf c). lra.
Qed.

Lemma Qsum_scale (f : HeirClass -> Q) (k : Q) (l : list HeirClass) :
  Qsum (map (fun c => f c * k) l) == Qsum (map f l) * k.
Proof.
  induction l as [|c l IH]; cbn [map Qsum fold_right].
  - ring.
  - fold (Qsum (map (fun c => f c * k) l)). fold (Qsum (map f l)).
    rewrite IH. ring.
Qed.

Lemma Qsum_ext (f g : HeirClass -> Q) (l : list HeirClass) :
  Forall (fun c => f c == g c) l -> Qsum (map f l) == Qsum (map g l).
Proof.
  induction 1 as [|c l Hc _ IH]; cbn [map Qsum fold_right]; [reflexivity|].
  fold (Qsum (map f l)). fold (Qsum (map g l)). rewrite Hc, IH. reflexivity.
Qed.

Lemma Qsum_positive (f : HeirClass -> Q) (l : list HeirClass) :
  l <> [] -> Forall (fun c => 0 < f c) l -> 0 < Qsum (map f l).
Proof.
  intros Hne Hall. induction Hall as [|c l Hc Hl IH]; [congruence|].
  cbn [map Qsum fold_right]. fold (Qsum (map f l)).
  destruct l as [|d l].
  - cbn. lra.
  - assert (0 < Qsum (map f (d :: l))) by (apply IH; discriminate). lra.
Qed.

Lemma total_all : total i == Qsum (map (awarded i) all_classes).
Proof.
  unfold total, recipients.
  apply (Qsum_filter_positive (awarded i)). exact awarded_nonneg.
Qed.

Lemma awarded_all :
  Qsum (map (awarded i) all_classes)
  == Qsum (map (fixedOrZero i) all_classes)
     + (if JS.gtb (remainder i) 0
        then remainder i * Qsum (map (residuePortion i) all_classes)
        else 0).
Proof.
  unfold awarded. destruct (JS.gtb (remainder i) 0);
    unfold all_classes; cbn [map Qsum fold_right]; ring.
Qed.

Lemma anySon_heads : anySon i = true -> 0 < heads i SonGroup.
Proof.
  intro A. apply present_heads. unfold present, status, anySon in *.
  cbn [memberCount]. apply Z.ltb_lt in A.
  destruct (sonsCount i <=? 0)%Z eqn:E; [apply Z.leb_le in E; lia|reflexivity].
Qed.

(** A residuary tier, once it exists, takes the whole residue. *)
Lemma portions_total :
  residuary i <> NoResiduary ->
  Qsum (map (residuePortion i) all_classes) == 1.
Proof.
  intro T.
  pose proof (heads_nonneg SonGroup). pose proof (heads_nonneg DaughterGroup).
  pose proof (heads_nonneg FullBrotherGroup).
  pose proof (heads_nonneg FullSisterGroup).
  pose proof (heads_nonneg PaternalBrotherGroup).
  pose proof (heads_nonneg PaternalSisterGroup).
  unfold all_classes, residuePortion. cbn [map Qsum fold_right].
  destruct (residuary i) eqn:R; [| | | |congruence]; unfold residuary in R.
  - destruct (anySon i) eqn:A.
    + apply anySon_heads in A. field. lra.
    + repeat match type of R with
             | (if ?b then _ else _) = _ => destruct b
             end; discriminate.
  - ring.
  - destruct (anySon i); [discriminate|].
    destruct (hasFather i); [discriminate|].
    destruct (present i FullBrotherGroup) eqn:PB.
    + apply present_heads in PB. field. lra.
    + destruct (present i FullSisterGroup) eqn:PS.
      * apply present_heads in PS. field. lra.
      * cbn in R.
        repeat match type of R with
               | (if ?b then _ else _) = _ => destruct b
               end; discriminate.
  - destruct (anySon i); [discriminate|].
    destruct (hasFather i); [discriminate|].
    destruct (present i FullBrotherGroup
              || present i FullSisterGroup && (0 <? daughtersCount i)%Z)%bool;
      [discriminate|].
    destruct (present i PaternalBrotherGroup) eqn:PB.
    + apply present_heads in PB. field. lra.
    + destruct (present i PaternalSisterGroup) eqn:PS.
      * apply present_heads in PS. field. lra.
      * discriminate.
Qed.

Lemma total_at_least_one :
  residuary i <> NoResiduary \/ ~ 0 < remainder i -> 1 <= total i.
Proof.
  intro H. rewrite total_all, awarded_all.
  destruct (JS.gtb (remainder i) 0) eqn:G.
  - apply gtb_iff in G. destruct H as [T | N]; [|contradiction].
    rewrite (portions_total T). unfold remainder. lra.
  - assert (~ 0 < remainder i) by (rewrite <- gtb_iff; congruence).
    unfold remainder in *. lra.
Qed.

Lemma recipients_positive : Forall (fun c => 0 < awarded i c) (recipients i).
Proof.
  apply Forall_forall. intros c Hc. unfold recipients in Hc.
  apply filter_In in Hc. destruct Hc as [_ G]. apply gtb_iff. exact G.
Qed.

Lemma Qsum_by_spouse (f : HeirClass -> Q) (k : Q) (l : list HeirClass) :
  Qsum (map (fun c => if is_spouse c then f c else f c * k) l)
  == Qsum (map f (filter is_spouse l))
     + Qsum (map f (filter (fun c => negb (is_spouse c)) l)) * k.
Proof.
  induction l as [|c l IH]; cbn [map filter Qsum fold_right].
  - ring.
  - fold (Qsum (map (fun c => if is_spouse c then f c else f c * k) l)).
    rewrite IH. destruct (is_spouse c); cbn [negb map Qsum fold_right];
      fold (Qsum (map f (filter is_spouse l)));
      fold (Qsum (map f (filter (fun c => negb (is_spouse c)) l))); ring.
Qed.

Lemma blood_positive :
  correction i = Radd ->
  0 < Qsum (map (awarded i) (bloodRecipients i)).
Proof.
  unfold correction. intro C.
  destruct (JS.gtb (total i) 1); [discriminate|].
  destruct (JS.gtb 1 (total i)
            && match residuary i with NoResiduary => true | _ => false end
            && negb (unresolved i))%bool eqn:B; [|discriminate].
  apply andb_true_iff in B. destruct B as [B U].
  apply andb_true_iff in B. destruct B as [G T].
  apply gtb_iff in G. apply negb_true_iff in U.
  apply Qsum_positive.
  - intro Hnil. destruct (JS.gtb (remainder i) 0) eqn:R.
    + unfold unresolved in U. rewrite R, T, Hnil in U. discriminate.
    + assert (1 <= total i).
      { apply total_at_least_one. right. rewrite <- gtb_iff. congruence. }
      lra.
  - unfold bloodRecipients. apply Forall_forall. intros c Hc.
    apply filter_In in Hc. destruct Hc as [Hc _].
    pose proof recipients_positive as P. rewrite Forall_forall in P.
    apply P. exact Hc.
Qed.

(** The normalised fractions of the recipients add up to one whenever
    no remainder is left unresolved. *)
Lemma normalized_total :
  unresolved i = false ->
  Qsum (map (normalized i) (recipients i)) == 1.
Proof.
  intro U. unfold normalized.
  destruct (correction i) eqn:C.
  - (* awl *)
    unfold correction in C.
    destruct (JS.gtb (total i) 1) eqn:G.
    + apply gtb_iff in G. rewrite Qsum_scale. fold (total i). field. lra.
    + destruct (_ && _ && _)%bool in C; discriminate.
  - (* radd *)
    pose proof (blood_positive C) as B.
    set (blood := Qsum (map (awarded i) (bloodRecipients i))) in *.
    set (spouse := Qsum (map (awarded i) (spouseRecipients i))).
    rewrite (Qsum_ext _ (fun c => if is_spouse c then awarded i c
                                  else awarded i c
                                       * (1 / blood * (1 - spouse)))).
    + rewrite Qsum_by_spouse.
      fold (spouseRecipients i). fold (bloodRecipients i).
      fold blood. fold spouse. field. lra.
    + apply Forall_forall. intros c _. destruct (is_spouse c);
        [reflexivity | ring].
  - (* no correction *)
    change (total i == 1). unfold correction in C.
    destruct (JS.gtb (total i) 1) eqn:G1; [discriminate|].
    assert (L1 : ~ 1 < total i) by (rewrite <- gtb_iff; congruence).
    destruct (JS.gtb 1 (total i)) eqn:G2.
    + apply gtb_iff in G2. rewrite U in C. cbn in C.
      assert (1 <= total i).
      { apply total_at_least_one. left. intro T. rewrite T in C. discriminate. }
      lra.
    + assert (~ total i < 1) by (rewrite <- gtb_iff; congruence). lra.
Qed.

Lemma class_amounts_total :
  unresolved i = false ->
  Qsum (map cs_amount (map (classShareOf i) (recipients i)))
  == netEstate (netEstateOf i).
Proof.
  intro U. rewrite map_map. cbn [classShareOf cs_amount].
  rewrite (Qsum_scale (normalized i)), (normalized_total U). ring.
Qed.

End EngineConservation.

Lemma validate_unchanged (input i : Engine.EstateInput) :
  Engine.validate input = inr i -> i = input.
Proof.
  unfold Engine.validate.
  repeat match goal with
         | |- (if ?b then _ else _) = _ -> _ => destruct b
         end; congruence.
Qed.

Lemma has_unresolved_iff (input : Engine.EstateInput)
      (r : Engine.DistributionResult) :
  Engine.compute input = inr r ->
  Engine.has_unresolved r = Engine.unresolved input.
Proof.
  unfold Engine.compute. destruct (Engine.validate input) as [e|i] eqn:V;
    [discriminate|].
  apply validate_unchanged in V. subst i. intros [= <-].
  unfold Engine.has_unresolved. cbn [Engine.warnings].
  rewrite existsb_app. unfold Engine.netEstateOf. cbn [Engine.ne_warnings].
  destruct (JS.gtb (willAmount input) _); destruct (Engine.unresolved input);
    reflexivity.
Qed.

(** C8.  Conservation: for every input the engine accepts, if the
    result carries no UnresolvedRemainder warning, the amounts of its
    class shares add up to the net estate exactly, in rational
    arithmetic. *)
Theorem engine_conservation
        (input : Engine.EstateInput) (r : Engine.DistributionResult)
        (Hok : Engine.compute input = inr r)
        (Hresolved : Engine.has_unresolved r = false) :
  Engine.classTotal r == Engine.netEstate (Engine.dr_netEstate r).
Proof.
  rewrite (has_unresolved_iff _ _ Hok) in Hresolved.
  unfold Engine.compute in Hok.
  destruct (Engine.validate input) as [e|i] eqn:V; [discriminate|].
  apply validate_unchanged in V. subst i. injection Hok as <-.
  unfold Engine.classTotal. cbn [Engine.classShares Engine.dr_netEstate].
  apply class_amounts_total. exact Hresolved.
Qed.

Lemma engine_conservation_witness :
  match Engine.compute scenarioA with
  | inr r =>
    Engine.has_unresolved r = false
    /\ Engine.classTotal r == Engine.netEstate (Engine.dr_netEstate r)
  | inl _ => False
  end.
Proof.
  destruct (Engine.compute scenarioA) as [e|r] eqn:C.
  - vm_compute in C. discriminate C.
  - assert (U : Engine.has_unresolved r = false).
    { vm_compute in C. injection C as <-. reflexivity. }
    split; [exact U|].
    apply (engine_conservation scenarioA r C U).
Defined.

(** * Further properties of the component *)

(** ** Net estate: bounds, accounting, monotonicity *)

Ltac split_max x y :=
  let H := fresh "M" in
  let E := fresh "E" in
  destruct (Q.max_spec x y) as [[H E] | [H E]]; rewrite E in *; clear E.

Ltac max_cases :=
  repeat match goal with
         | |- context [Qmax ?x ?y] => split_max x y
         | _ : context [Qmax ?x ?y] |- _ => split_max x y
         end.


(** X2.  For whole amounts up to 2^53, which binary64 holds and
    subtracts without rounding: when the debts do not exceed the estate
    and the bequest does not exceed what the debts leave, the net estate
    is the estate less the debts less the bequest, and the three figures
    shown account for the whole estate: debts + bequest + net estate =
    estate value. *)
Theorem breakdown_adds_up (formData : HeirsData) (e d w : Z)
        (Hestate : estateValue formData == inject_Z e)
        (Hdebt : debts formData == inject_Z d)
        (Hbequest : willAmount formData == inject_Z w)
        (Hrange : (0 <= d <= e)%Z /\ (e <= 2 ^ 53)%Z)
        (Hfits : (0 <= w <= e - d)%Z) :
  ne_net (netEstateCalculations formData) == inject_Z (e - d - w)
  /\ ne_debts (netEstateCalculations formData)
     + ne_will (netEstateCalculations formData)
     + ne_net (netEstateCalculations formData)
     == ne_estate (netEstateCalculations formData).
Proof.
  assert (He : inject_Z d <= inject_Z e) by (rewrite <- Zle_Qle; lia).
  assert (Hw : inject_Z w <= inject_Z e - inject_Z d).
  { unfold Qminus. rewrite <- inject_Z_opp, <- inject_Z_plus, <- Zle_Qle. lia. }
  assert (Hn : ne_net (netEstateCalculations formData)
               == inject_Z e - inject_Z d - inject_Z w).
  { rewrite net_formula, Hestate, Hdebt, Hbequest. max_cases; lra. }
  split.
  - rewrite Hn. unfold Z.sub. rewrite !inject_Z_plus, !inject_Z_opp. ring.
  - rewrite Hn. unfold netEstateCalculations.
    cbn [ne_debts ne_will ne_estate]. rewrite !or_zero_eq.
    rewrite Hestate, Hdebt, Hbequest. ring.
Qed.

Lemma breakdown_adds_up_witness :
  estateValue scenarioD == inject_Z 90000
  /\ debts scenarioD == inject_Z 0
  /\ willAmount scenarioD == inject_Z 40000
  /\ ne_net (netEstateCalculations scenarioD) == inject_Z (90000 - 0 - 40000).
Proof.
  split; [reflexivity | split; [reflexivity | split; [reflexivity |]]].
  apply (breakdown_adds_up scenarioD 90000 0 40000);
    try reflexivity; lia.
Defined.



(** X4.  On the binary64 numbers of the component the over-limit flag
    is only ever raised for a bequest greater than zero on an estate
    greater than zero: never for an empty, zero, negative or [NaN]
    field. *)
Theorem flag_needs_positive_bequest_and_estate
        (formData : Double.HeirsData)
        (Hflag : Double.isWillOverLimit
                   (Double.netEstateCalculations formData) = true) :
  Double.gtb (Double.estateValue formData) Double.zero = true
  /\ Double.gtb (Double.willAmount formData) Double.zero = true.
Proof.
  apply flag_on_raw_fields in Hflag. destruct Hflag as [Hw He].
  split; [exact He|].
  unfold Double.gtb in *.
  exact (above_unsigned_is_positive _ _ (third_of_positive _ He) Hw).
Qed.

Lemma flag_needs_positive_bequest_and_estate_witness :
  Double.isWillOverLimit (Double.netEstateCalculations scenarioDDouble) = true
  /\ Double.gtb (Double.willAmount scenarioDDouble) Double.zero = true.
Proof.
  split; [vm_compute; reflexivity|].
  apply (flag_needs_positive_bequest_and_estate scenarioDDouble).
  vm_compute. reflexivity.
Defined.

(** ** Looking up a share: letter case and overlapping keywords *)

Lemma lower_ascii_idempotent (c : ascii) :
  JS.lower_ascii (JS.lower_ascii c) = JS.lower_ascii c.
Proof.
  destruct c as [[] [] [] [] [] [] [] []]; reflexivity.
Qed.

Lemma toLowerCase_idempotent (s : string) :
  JS.toLowerCase (JS.toLowerCase s) = JS.toLowerCase s.
Proof.
  induction s as [|c s IH]; cbn; [reflexivity|].
  rewrite lower_ascii_idempotent, IH. reflexivity.
Qed.

Lemma find_map {A B : Type} (f : A -> B) (p : B -> bool) (l : list A) :
  find p (map f l) = option_map f (find (fun x => p (f x)) l).
Proof.
  induction l as [|x l IH]; cbn; [reflexivity|].
  destruct (p (f x)); [reflexivity | exact IH].
Qed.

Lemma find_pointwise {A : Type} (p q : A -> bool) (l : list A) :
  (forall x, p x = q x) -> find p l = find q l.
Proof.
  intro H. induction l as [|x l IH]; cbn; [reflexivity|].
  rewrite H, IH. reflexivity.
Qed.

Lemma string_app_assoc (a b c : string) : (a ++ b) ++ c = a ++ (b ++ c).
Proof.
  induction a as [|ch a IH]; cbn; [reflexivity | rewrite IH; reflexivity].
Qed.

Lemma share_matches_lower (kws : list string) (s : Share) :
  share_matches (map JS.toLowerCase kws) (lower_share s)
  = share_matches kws s.
Proof.
  unfold share_matches. cbn [lower_share heir].
  rewrite toLowerCase_idempotent.
  induction kws as [|k kws IH]; cbn [map existsb]; [reflexivity|].
  rewrite toLowerCase_idempotent, IH. reflexivity.
Qed.

(** X5.  The lookup is blind to letter case: on the reply with every
    heir name lower-cased, and with the keywords lower-cased, [getShare]
    finds the same share, at the same place, with the same amount,
    percentage and fraction. *)
Theorem getShare_case_insensitive
        (r : CalculationResponse) (kws : list string) :
  getShare (lower_reply r) (map JS.toLowerCase kws)
  = option_map lower_share (getShare r kws).
Proof.
  unfold getShare, lower_reply. cbn [shares]. rewrite find_map.
  f_equal. apply find_pointwise. intro s. apply share_matches_lower.
Qed.

Lemma includes_trans (a b c : string) :
  JS.includes a b = true -> JS.includes b c = true ->
  JS.includes a c = true.
Proof.
  rewrite !includes_spec. intros [x [y ->]] [u [v ->]].
  exists (x ++ u), (v ++ y).
  rewrite !string_app_assoc. reflexivity.
Qed.

Lemma share_matches_one (w : string) (kws : list string) (s : Share) :
  existsb (fun k => JS.includes (JS.toLowerCase w) (JS.toLowerCase k)) kws
  = true ->
  share_matches [w] s = true -> share_matches kws s = true.
Proof.
  unfold share_matches. cbn [existsb]. rewrite orb_false_r.
  rewrite !existsb_exists. intros [k [Hin Hk]] Hw.
  exists k. split; [exact Hin|].
  eapply includes_trans; eassumption.
Qed.

(** X6.  Keywords of one kind occur inside keywords of another.  For
    each of the four pairs of [overlapping], every share whose name
    contains the longer keyword, which belongs to another kind, is
    matched by the keywords of the kind as well: a wives' share named in
    Arabic answers the husband's lookup, a sons' share the father's, and
    a daughters' share named [ابنة] the sons'. *)
Theorem keyword_overlap (k : HeirKind) (w : string) (s : Share)
        (Hpair : In (k, w) overlapping)
        (Hname : share_matches [w] s = true) :
  share_matches (keywords k) s = true
  /\ exists k', k' <> k /\ In w (keywords k').
Proof.
  cbn in Hpair.
  destruct Hpair as [E | [E | [E | [E | []]]]]; injection E as <- <-.
  - split; [revert Hname; apply share_matches_one; reflexivity|].
    exists KWife. split; [discriminate | cbn; tauto].
  - split; [revert Hname; apply share_matches_one; reflexivity|].
    exists KWife. split; [discriminate | cbn; tauto].
  - split; [revert Hname; apply share_matches_one; reflexivity|].
    exists KSon. split; [discriminate | cbn; tauto].
  - split; [revert Hname; apply share_matches_one; reflexivity|].
    exists KDaughter. split; [discriminate | cbn; tauto].
Qed.

Lemma keyword_overlap_witness :
  In (KSon, "ابنة") overlapping
  /\ share_matches ["ابنة"] daughterShare = true
  /\ share_matches (keywords KSon) daughterShare = true.
Proof.
  split; [cbn; tauto | split; [reflexivity|]].
  apply (keyword_overlap KSon "ابنة" daughterShare); [cbn; tauto | reflexivity].
Defined.

(** ** The list of individual heirs: size and names *)





Lemma string_of_index_injective (i j : Z) :
  JS.string_of_index i = JS.string_of_index j -> i = j.
Proof.
  unfold JS.string_of_index. intro H.
  apply (f_equal NilEmpty.int_of_string) in H.
  rewrite !NilEmpty.isi in H. injection H as H.
  apply (f_equal Z.of_int) in H. rewrite !DecimalZ.of_to in H. exact H.
Qed.

Lemma string_app_cancel (a b c : string) : a ++ b = a ++ c -> b = c.
Proof.
  induction a as [|ch a IH]; cbn; intro H; [exact H|].
  injection H as H. apply IH. exact H.
Qed.

Lemma NoDup_map_injective {A B : Type} (g : A -> B) (l : list A) :
  (forall x y, In x l -> In y l -> g x = g y -> x = y) ->
  NoDup l -> NoDup (map g l).
Proof.
  intros Hinj Hnd. induction Hnd as [|x l Hx Hnd IH]; cbn; constructor.
  - intro Hin. apply in_map_iff in Hin. destruct Hin as [y [Hy Hin]].
    assert (y = x) by (apply Hinj; cbn; auto).
    subst y. contradiction.
  - apply IH. intros a b Ha Hb. apply Hinj; cbn; auto.
Qed.

Lemma indices_NoDup (n : Z) : NoDup (map Z.of_nat (seq 1 (Z.to_nat n))).
Proof.
  apply NoDup_map_injective; [|apply seq_NoDup].
  intros x y _ _. apply Nat2Z.inj.
Qed.

(** X9.  Within the entries of one kind no two heirs carry the same
    name: a lone wife, son or daughter has the bare label, and otherwise
    the members are numbered, the numbers being printed so that they can
    be told apart. *)
Theorem member_names_distinct
        (labels : Labels.t) (r : CalculationResponse)
        (formData : HeirsData) (k : HeirKind) :
  NoDup (map Heir.name (entries labels r formData k)).
Proof.
  unfold entries.
  destruct (0 <? declared formData k)%Z; [|constructor].
  destruct (getShare r (keywords k)) as [s|]; [|constructor].
  destruct (is_group k) eqn:G.
  - rewrite map_map. cbn [Heir.name].
    destruct (1 <? declared formData k)%Z eqn:Many.
    + apply NoDup_map_injective; [|apply indices_NoDup].
      intros x y _ _ E. apply string_of_index_injective.
      destruct k; try discriminate G; cbn [member_name] in E;
        rewrite ?Many in E;
        apply string_app_cancel in E; apply string_app_cancel in E; exact E.
    + destruct (0 <? declared formData k)%Z eqn:P.
      * assert (declared formData k = 1%Z)
          by (apply Z.ltb_lt in P; apply Z.ltb_ge in Many; lia).
        rewrite H. cbn. constructor; [intros [] | constructor].
      * assert (Z.to_nat (declared formData k) = 0%nat)
          by (apply Z.ltb_ge in P; lia).
        rewrite H. constructor.
  - cbn. constructor; [intros [] | constructor].
Qed.

Lemma nothing_to_list_from_counts
      (individualHeirLabels : Language -> Labels.t)
      (r : CalculationResponse) (formData : HeirsData) (lang : Language) :
  (forall k, (declared formData k <= 0)%Z) ->
  individualHeirs individualHeirLabels (Some r) formData lang = [].
Proof.
  intro Hd. rewrite individualHeirs_blocks.
  induction all_kinds as [|k ks IH]; cbn; [reflexivity|].
  rewrite IH, app_nil_r. unfold entries.
  specialize (Hd k). apply Z.ltb_ge in Hd. rewrite Hd. reflexivity.
Qed.

(** X10.  An empty reply, or a form that declares no heir of any of the
    eight kinds (counts zero or negative, boxes unticked), gives an
    empty list. *)
Theorem nothing_to_list
        (individualHeirLabels : Language -> Labels.t)
        (r : CalculationResponse) (formData : HeirsData) (lang : Language)
        (Hnone : shares r = []
                 \/ forall k, (declared formData k <= 0)%Z) :
  individualHeirs individualHeirLabels (Some r) formData lang = [].
Proof.
  rewrite individualHeirs_blocks.
  assert (E : forall k,
             entries (individualHeirLabels lang) r formData k = []).
  { intro k. unfold entries. destruct Hnone as [Hr | Hd].
    - unfold getShare. rewrite Hr. cbn.
      destruct (0 <? declared formData k)%Z; reflexivity.
    - specialize (Hd k). apply Z.ltb_ge in Hd. rewrite Hd. reflexivity. }
  induction all_kinds as [|k ks IH]; cbn; [reflexivity|].
  rewrite E, IH. reflexivity.
Qed.

Lemma nothing_to_list_witness :
  (shares wivesReply = []
   \/ forall k, (declared initialFormData k <= 0)%Z)
  /\ individualHeirs (fun _ => englishLabels) (Some wivesReply)
                     initialFormData en = [].
Proof.
  assert (H : shares wivesReply = []
              \/ forall k, (declared initialFormData k <= 0)%Z).
  { right. intro k. destruct k; cbn; lia. }
  split; [exact H|].
  apply (nothing_to_list (fun _ => englishLabels) wivesReply
                         initialFormData en H).
Defined.

(** X11.  The list comes in a fixed order of kinds, whatever the order
    of the shares in the reply: husband, wives, father, mother, sons,
    daughters, full brothers, full sisters, the heirs of a kind standing
    together. *)
Theorem heirs_in_kind_order
        (individualHeirLabels : Language -> Labels.t)
        (r : CalculationResponse) (formData : HeirsData) (lang : Language) :
  let block := entries (individualHeirLabels lang) r formData in
  individualHeirs individualHeirLabels (Some r) formData lang
  = (block KHusband ++ block KWife ++ block KFather ++ block KMother
     ++ block KSon ++ block KDaughter ++ block KBrother
     ++ block KSister)%list.
Proof.
  intro block. rewrite individualHeirs_blocks.
  unfold all_kinds. cbn [flat_map]. rewrite app_nil_r. reflexivity.
Qed.

(** ** The handler across calls *)

(** X12.  Whatever the service answers, [handleCalculate] ends with the
    loading flag off and leaves language, step and form as they were.  A
    resolved call writes nothing to the alert and console channels; a
    failed call leaves the earlier results and the view in place and
    adds exactly one alert and one console line, after those already
    there. *)
Theorem handleCalculate_frame
        (calculateInheritance : HeirsData -> Language -> Settled)
        (st : AppState) :
  let st' := handleCalculate calculateInheritance st in
  st_loading st' = false
  /\ st_lang st' = st_lang st
  /\ st_step st' = st_step st
  /\ st_formData st' = st_formData st
  /\ match calculateInheritance (st_formData st) (st_lang st) with
     | Resolved res =>
       st_alerts st' = st_alerts st /\ st_console st' = st_console st
     | Rejected error =>
       st_results st' = st_results st
       /\ st_view st' = st_view st
       /\ st_alerts st'
          = (st_alerts st
             ++ ["Error calculating distribution. Please try again."])%list
       /\ st_console st' = (st_console st ++ [error])%list
     end.
Proof.
  intro st'. subst st'. rewrite handleCalculate_unfold.
  destruct (calculateInheritance (st_formData st) (st_lang st));
    cbn; repeat split.
Qed.

(** X13.  Of two calculations in a row the last resolved one decides
    what is stored: when the second call resolves, its reply is stored
    and shown whatever the first did, and running the same resolving
    call again changes nothing; when the second fails after a resolved
    first, the first reply stays stored and shown. *)
Theorem last_resolved_call_wins
        (first second : HeirsData -> Language -> Settled) (st : AppState) :
  let st2 := handleCalculate second (handleCalculate first st) in
  match second (st_formData st) (st_lang st) with
  | Resolved res =>
    st_results st2 = Some res /\ st_view st2 = results
    /\ handleCalculate second (handleCalculate second st)
       = handleCalculate second st
  | Rejected _ =>
    match first (st_formData st) (st_lang st) with
    | Resolved res => st_results st2 = Some res /\ st_view st2 = results
    | Rejected _ =>
      st_results st2 = st_results st /\ st_view st2 = st_view st
    end
  end.
Proof.
  intro st2. subst st2.
  pose proof (handleCalculate_unfold first st) as U1.
  pose proof (handleCalculate_unfold second st) as V1.
  pose proof (handleCalculate_unfold second (handleCalculate first st)) as U2.
  pose proof (handleCalculate_unfold second (handleCalculate second st)) as V2.
  destruct (second (st_formData st) (st_lang st)) as [res2|e2] eqn:S2.
  - assert (F1 : st_formData (handleCalculate first st) = st_formData st
                 /\ st_lang (handleCalculate first st) = st_lang st).
    { rewrite U1. destruct (first _ _); split; reflexivity. }
    destruct F1 as [F L]. rewrite F, L, S2 in U2. rewrite U2.
    split; [reflexivity | split; [reflexivity|]].
    rewrite V2, V1. cbn. rewrite S2. reflexivity.
  - destruct (first (st_formData st) (st_lang st)) as [res1|e1] eqn:S1;
      rewrite U2, U1; cbn; rewrite S2; split; reflexivity.
Qed.

(** ** The translation lookup *)

(** X14.  [t] returns either the key itself or a non-empty text that the
    table holds for the key and the language: a missing key, a missing
    language and an empty text all fall back to the key, so a label is
    blank only if its key is. *)
Theorem t_translation_or_key
        (TRANSLATIONS : string -> option (Language -> option string))
        (lang : Language) (key : string) :
  (t TRANSLATIONS lang key = key
   \/ (t TRANSLATIONS lang key <> ""
       /\ exists entry,
            TRANSLATIONS key = Some entry
            /\ entry lang = Some (t TRANSLATIONS lang key)))
  /\ (TRANSLATIONS key = None -> t TRANSLATIONS lang key = key)
  /\ (t TRANSLATIONS lang key = "" -> key = "").
Proof.
  unfold t. destruct (TRANSLATIONS key) as [entry|] eqn:T.
  - destruct (entry lang) as [text|] eqn:L.
    + destruct (String.eqb text "") eqn:E.
      * split; [left; reflexivity | split; [discriminate | auto]].
      * apply String.eqb_neq in E. split; [|split].
        -- right. split; [exact E|]. exists entry. split; [reflexivity|exact L].
        -- discriminate.
        -- intro H. contradiction.
    + split; [left; reflexivity | split; [discriminate | auto]].
  - split; [left; reflexivity | split; auto].
Qed.

Lemma t_translation_or_key_witness :
  sampleTranslations "resultsTitle" = None
  /\ t sampleTranslations ar "resultsTitle" = "resultsTitle"
  /\ t sampleTranslations ar "start" = "start"
  /\ t sampleTranslations ar "appName" = "appName"
  /\ t sampleTranslations en "appName" = "Inheritance".
Proof.
  split; [reflexivity|].
  split; [|repeat split].
  apply (t_translation_or_key sampleTranslations ar "resultsTitle").
  reflexivity.
Defined.

(** ** The wizard: what the buttons can and cannot lead to *)

Lemma view_eqb_eq (a b : View) : view_eqb a b = true <-> a = b.
Proof.
  destruct a, b; cbn; split; congruence.
Qed.

Ltac fire_cases H :=
  match type of H with
  | fire ?e ?st = Some _ =>
    destruct e; cbn [fire] in H;
    match type of H with
    | (if ?c then _ else _) = _ =>
      let C := fresh "C" in
      destruct c eqn:C; [|discriminate H];
      injection H as H;
      try (apply andb_true_iff in C; destruct C as [C ?]);
      apply view_eqb_eq in C
    end
  end.

Lemma fire_keeps_invariant (e : Event) (st st' : AppState) :
  wizard_invariant st -> fire e st = Some st' -> wizard_invariant st'.
Proof.
  intros [Hstep [Hload [Hform [Hview Hhome]]]] H.
  fire_cases H; subst st'.
  - (* Start *)
    unfold wizard_invariant. cbn. rewrite (Hhome C).
    repeat split; try lia; try assumption; try discriminate.
    intro R. apply Hview in R. congruence.
  - (* language *)
    unfold wizard_invariant. cbn. repeat split; try lia; tauto.
  - (* Back *)
    apply Z.ltb_lt in H0. unfold wizard_invariant. cbn.
    repeat split; try lia; try tauto. congruence.
  - (* Next *)
    apply Z.ltb_lt in H0. unfold wizard_invariant. cbn.
    repeat split; try lia; try tauto. congruence.
  - (* Calculate *)
    rewrite handleCalculate_unfold. cbn.
    assert (Hnone : st_results st = None).
    { destruct (st_results st) eqn:R; [|reflexivity].
      assert (st_view st = results) by (apply Hview; discriminate).
      congruence. }
    destruct reply; unfold wizard_invariant; cbn.
    + repeat split; try lia; try assumption; try discriminate.
    + repeat split; try lia; try assumption; try tauto.
  - (* Download PDF *)
    unfold wizard_invariant. tauto.
Qed.

Lemma run_keeps_invariant (events : list Event) (st st' : AppState) :
  wizard_invariant st -> run events st = Some st' -> wizard_invariant st'.
Proof.
  revert st. induction events as [|e events IH]; intros st Hinv H; cbn in H.
  - injection H as <-. exact Hinv.
  - destruct (fire e st) as [st1|] eqn:F; [|discriminate].
    apply (IH st1); [|exact H].
    eapply fire_keeps_invariant; eassumption.
Qed.

Lemma initial_invariant : wizard_invariant initialState.
Proof.
  unfold wizard_invariant. cbn.
  repeat split; try lia; try discriminate; congruence.
Qed.

(** X15.  After any sequence of button presses from the initial state
    the step lies between 1 and 4, the loading flag is off, and a stored
    reply is never hidden behind another view: whenever a reply is
    stored, the results view is the one showing. *)
Theorem stored_reply_is_shown (events : list Event) (st : AppState)
        (Hrun : run events initialState = Some st) :
  (1 <= st_step st <= 4)%Z
  /\ st_loading st = false
  /\ (st_results st <> None -> st_view st = results).
Proof.
  pose proof (run_keeps_invariant events _ _ initial_invariant Hrun) as H.
  unfold wizard_invariant in H. tauto.
Qed.

Lemma stored_reply_is_shown_witness :
  run throughWizard initialState
  = Some (handleCalculate (fun _ _ => Resolved sonReply)
            (setStep 4 (setLang en (setView form initialState))))
  /\ st_loading
       (handleCalculate (fun _ _ => Resolved sonReply)
          (setStep 4 (setLang en (setView form initialState)))) = false.
Proof.
  assert (H : run throughWizard initialState
              = Some (handleCalculate (fun _ _ => Resolved sonReply)
                        (setStep 4 (setLang en (setView form initialState)))))
    by reflexivity.
  split; [exact H|].
  apply (stored_reply_is_shown throughWizard _ H).
Defined.

(** X16.  In the component as it stands no button writes to the form:
    after any sequence of presses the form is the initial one, which
    declares no heir, so the list of individual heirs is empty whatever
    reply is stored. *)
Theorem form_never_filled
        (individualHeirLabels : Language -> Labels.t)
        (events : list Event) (st : AppState)
        (Hrun : run events initialState = Some st) :
  st_formData st = initialFormData
  /\ individualHeirs individualHeirLabels (st_results st) (st_formData st)
                     (st_lang st) = [].
Proof.
  pose proof (run_keeps_invariant events _ _ initial_invariant Hrun)
    as [_ [_ [Hform _]]].
  split; [exact Hform|]. rewrite Hform.
  destruct (st_results st) as [r|]; [|reflexivity].
  apply nothing_to_list_from_counts. intro k. destruct k; cbn; lia.
Qed.

Lemma form_never_filled_witness :
  run throughWizard initialState
  = Some (handleCalculate (fun _ _ => Resolved sonReply)
            (setStep 4 (setLang en (setView form initialState))))
  /\ individualHeirs (fun _ => englishLabels) (Some sonReply)
                     initialFormData en = [].
Proof.
  assert (H : run throughWizard initialState
              = Some (handleCalculate (fun _ _ => Resolved sonReply)
                        (setStep 4 (setLang en (setView form initialState)))))
    by reflexivity.
  split; [exact H|].
  apply (form_never_filled (fun _ => englishLabels) throughWizard _ H).
Defined.

(** X17.  The results view is final: once it is showing, the only
    button that acts is Download PDF, and it leaves the state as it is;
    there is no way back to the form or to the home view. *)
Theorem results_view_final (e : Event) (st st' : AppState)
        (Hview : st_view st = results)
        (Hfire : fire e st = Some st') :
  e = ClickDownloadPDF /\ st' = st.
Proof.
  fire_cases Hfire; try congruence.
  split; [reflexivity | symmetry; exact Hfire].
Qed.

Lemma results_view_final_witness :
  st_view (handleCalculate sonService
             (setStep 4 (setView form initialState))) = results
  /\ fire ClickDownloadPDF
          (handleCalculate sonService (setStep 4 (setView form initialState)))
     = Some (handleCalculate sonService
               (setStep 4 (setView form initialState)))
  /\ ClickDownloadPDF = ClickDownloadPDF.
Proof.
  split; [reflexivity | split; [reflexivity|]].
  apply (results_view_final ClickDownloadPDF
           (handleCalculate sonService (setStep 4 (setView form initialState)))
           (handleCalculate sonService (setStep 4 (setView form initialState))));
    reflexivity.
Defined.

Lemma View_results_dec (st : AppState) :
  {st_view st = results} + {st_view st <> results}.
Proof.
  destruct (st_view st); [right | right | left]; congruence.
Qed.

Lemma presses_cons (p : Event -> bool) (e : Event) (events : list Event) :
  presses p (e :: events)
  = ((if p e then 1 else 0) + presses p events)%Z.
Proof.
  unfold presses. cbn [filter]. destruct (p e); cbn [List.length]; lia.
Qed.

Lemma presses_nonneg (p : Event -> bool) (events : list Event) :
  (0 <= presses p events)%Z.
Proof.
  unfold presses. lia.
Qed.

Lemma steps_to_results (events : list Event) (st st' : AppState) :
  run events st = Some st' ->
  st_view st <> results -> st_view st' = results ->
  (4 - st_step st <= presses is_next events)%Z
  /\ (1 <= presses is_calculate events)%Z.
Proof.
  revert st. induction events as [|e events IH]; intros st H Hv Hv'; cbn in H.
  - injection H as <-. contradiction.
  - destruct (fire e st) as [st1|] eqn:F; [|discriminate].
    rewrite !presses_cons.
    pose proof (presses_nonneg is_next events).
    pose proof (presses_nonneg is_calculate events).
    destruct (View_results_dec st1) as [R | R].
    + (* the press itself brought the results up *)
      fire_cases F; subst st1; cbn in R; try congruence.
      apply Z.eqb_eq in H2. cbn [is_next is_calculate]. lia.
    + specialize (IH st1 H R Hv') as [IHn IHc].
      fire_cases F; subst st1; cbn [is_next is_calculate st_step setView
        setLang setStep] in *; lia.
Qed.

(** X18.  The wizard cannot be skipped: any sequence of presses that
    leads from the initial state to the results view contains at least
    three presses of Next and at least one of Calculate, Calculate
    being offered on step 4 only. *)
Theorem wizard_cannot_be_skipped (events : list Event) (st : AppState)
        (Hrun : run events initialState = Some st)
        (Hview : st_view st = results) :
  (3 <= presses is_next events)%Z
  /\ (1 <= presses is_calculate events)%Z.
Proof.
  assert (Hhome : st_view initialState <> results) by discriminate.
  destruct (steps_to_results events initialState st Hrun Hhome Hview)
    as [Hn Hc].
  cbn in Hn. split; [lia | exact Hc].
Qed.

Lemma wizard_cannot_be_skipped_witness :
  run throughWizard initialState
  = Some (handleCalculate (fun _ _ => Resolved sonReply)
            (setStep 4 (setLang en (setView form initialState))))
  /\ st_view (handleCalculate (fun _ _ => Resolved sonReply)
                (setStep 4 (setLang en (setView form initialState))))
     = results
  /\ (3 <= presses is_next throughWizard)%Z.
Proof.
  assert (H : run throughWizard initialState
              = Some (handleCalculate (fun _ _ => Resolved sonReply)
                        (setStep 4 (setLang en (setView form initialState)))))
    by reflexivity.
  split; [exact H | split; [reflexivity|]].
  apply (wizard_cannot_be_skipped throughWizard _ H). reflexivity.
Defined.

(** X19.  The language can only be changed on step 1 of the form: a
    press that changes it is a press of a language button there, and
    every other press leaves it alone. *)
Theorem language_changes_on_step_one (e : Event) (st st' : AppState)
        (Hfire : fire e st = Some st')
        (Hlang : st_lang st' <> st_lang st) :
  e = ClickLang (st_lang st')
  /\ st_view st = form /\ st_step st = 1%Z.
Proof.
  fire_cases Hfire; subst st'; try (cbn in Hlang; congruence).
  - cbn. apply Z.eqb_eq in H. auto.
  - rewrite handleCalculate_unfold in Hlang.
    destruct reply; cbn in Hlang; congruence.
Qed.

Lemma language_changes_on_step_one_witness :
  fire (ClickLang en) (setView form initialState)
  = Some (setLang en (setView form initialState))
  /\ st_lang (setLang en (setView form initialState))
     <> st_lang (setView form initialState)
  /\ st_step (setView form initialState) = 1%Z.
Proof.
  split; [reflexivity | split; [discriminate|]].
  apply (language_changes_on_step_one (ClickLang en)
           (setView form initialState)
           (setLang en (setView form initialState)));
    [reflexivity | discriminate].
Defined.

(** ** Where the entries come from *)

(** X20.  Every entry of the list is drawn from a share of the reply:
    it carries that share's fraction text unchanged, and its amount and
    percentage are the share's, either as they are or both divided, as
    binary64 numbers, by one and the same whole head count greater than
    zero. *)
Theorem entries_come_from_shares
        (individualHeirLabels : Language -> Labels.t)
        (r : Double.CalculationResponse) (formData : Double.HeirsData)
        (lang : Language) (e : Double.Heir.t)
        (Hin : In e (Double.individualHeirs individualHeirLabels (Some r)
                                            formData lang)) :
  exists s,
    In s (Double.shares r)
    /\ Double.Heir.fraction e = Double.shareFraction s
    /\ ((Double.Heir.amount e = Double.amount s
         /\ Double.Heir.percentage e = Double.sharePercentage s)
        \/ exists n, (0 < n)%Z
             /\ Double.Heir.amount e
                = Double.div (Double.amount s) (Double.of_Z n)
             /\ Double.Heir.percentage e
                = Double.div (Double.sharePercentage s) (Double.of_Z n)).
Proof.
  rewrite individualHeirs_blocks_double in Hin. apply in_flat_map in Hin.
  destruct Hin as [k [_ Hk]]. unfold Double.entries in Hk.
  destruct (0 <? Double.declared formData k)%Z eqn:P; [|contradiction].
  apply Z.ltb_lt in P.
  destruct (Double.getShare r (keywords k)) as [s|] eqn:G; [|contradiction].
  unfold Double.getShare in G. apply find_some in G. destruct G as [Hs _].
  exists s. split; [exact Hs|].
  destruct (is_group k).
  - apply in_map_iff in Hk. destruct Hk as [i [<- _]].
    split; [reflexivity|]. right. exists (Double.declared formData k).
    repeat split. exact P.
  - destruct Hk as [<- | []]. split; [reflexivity|]. left. split; reflexivity.
Qed.

Lemma entries_come_from_shares_witness :
  In (Double.Heir.mk "Wife 2" (Double.of_Z 20000)
                     (Double.lit 8333333333333334 (-15)) "1/4")
     (Double.individualHeirs (fun _ => englishLabels) (Some wivesReplyDouble)
                             threeWivesDouble en)
  /\ exists s, In s (Double.shares wivesReplyDouble)
               /\ "1/4" = Double.shareFraction s.
Proof.
  assert (H : In (Double.Heir.mk "Wife 2" (Double.of_Z 20000)
                    (Double.lit 8333333333333334 (-15)) "1/4")
                 (Double.individualHeirs (fun _ => englishLabels)
                    (Some wivesReplyDouble) threeWivesDouble en))
    by (right; left; vm_compute; reflexivity).
  split; [exact H|].
  destruct (entries_come_from_shares (fun _ => englishLabels)
              wivesReplyDouble threeWivesDouble en _ H) as [s [Hs [Hf _]]].
  exists s. split; [exact Hs | exact Hf].
Defined.
